(** * Sight-reading sheet generator: a shallow embedding of [src/App.tsx]

    The development follows the TypeScript source function by function and
    keeps its names.  Conventions of the embedding:

    - A JavaScript [number] is a [number]: an exact rational or one of the
      three non-finite values.  Arithmetic is exact; the binary64 rounding
      of a quotient or of a very large literal is not carried.  Values that
      the source obtains from [Math.round] or from a digit string are
      integral and are typed [whole] resp. [Z].
    - A JavaScript string is a [string] whose characters are the code units
      below 256.
    - [Math.random] is an oracle indexed by the number of draws made so far;
      the VexFlow [KeyManager] is an interface with its own state.
    - Records follow the declared TypeScript types; what [JSON.parse]
      returns and [JSON.stringify] reads is a [json] value.  Where the
      order in which an object enumerates its properties matters, it is
      computed from the members ([ownProperties]).
    - The handlers of the component are functions on the state
      [App.State]; a computation that can throw or never return gives an
      [outcome].  A zero is the positive zero. *)

From Stdlib Require Import ZArith QArith Qround Qminmax Qreduction Qabs Lqa.
From Stdlib Require Import String Ascii DecimalString List Permutation Bool Lia.
Import ListNotations.

Local Open Scope string_scope.
Local Open Scope Z_scope.

Set Warnings "-register-all".

(* ===================================================================== *)
(** ** Numbers *)
(* ===================================================================== *)

Inductive number : Type :=
| Num (q : Q)
| PosInf
| NegInf
| NaN.

(** The result of [Math.round]: an integer, or a non-finite value passed
    through unchanged. *)
Inductive whole : Type :=
| Whole (z : Z)
| WholePosInf
| WholeNegInf
| WholeNaN.

Definition ofZ (z : Z) : number := Num (inject_Z z).

Definition Number_isFinite (x : number) : bool :=
  match x with Num _ => true | _ => false end.

Definition Number_isNaN (x : number) : bool :=
  match x with NaN => true | _ => false end.

(** [a / b] for two non-negative integers, as in [(numerator * 4) / denominator]. *)
Definition divide (a b : Z) : number :=
  if b =? 0 then (if a =? 0 then NaN else if 0 <? a then PosInf else NegInf)
  else Num (Qred (Qmake a (Z.to_pos b))).

(** [Number(x.toFixed(2))]: the nearest hundredth, the larger one on a tie;
    from 1e21 on [toFixed] prints the number itself. *)
Definition toFixed2 (x : number) : number :=
  match x with
  | Num q =>
      if Qle_bool (inject_Z (10 ^ 21)) (Qabs q) then Num q
      else if Qle_bool 0 q
           then Num (Qred (Qmake (Qfloor (q * 100 + (1 # 2))) 100))
           else Num (Qred (- Qmake (Qfloor ((- q) * 100 + (1 # 2))) 100))
  | other => other
  end.

Definition times2 (x : number) : number :=
  match x with
  | Num q => Num (Qred (q * 2))
  | other => other
  end.

(** [Math.round]: floor (x + 1/2). *)
Definition Math_round (x : number) : whole :=
  match x with
  | Num q => Whole (Qfloor (q + (1 # 2)))
  | PosInf => WholePosInf
  | NegInf => WholeNegInf
  | NaN => WholeNaN
  end.

(* ===================================================================== *)
(** ** Characters and strings *)
(* ===================================================================== *)

Definition code (c : ascii) : N := N_of_ascii c.

(** [\d] *)
Definition isDigit (c : ascii) : bool :=
  ((48 <=? code c) && (code c <=? 57))%N.

(** [\s], restricted to the code units below 256. *)
Definition isSpace (c : ascii) : bool :=
  ((9 <=? code c) && (code c <=? 13) || (code c =? 32) || (code c =? 160))%N.

Definition isUpper (c : ascii) : bool := ((65 <=? code c) && (code c <=? 90))%N.
Definition isLower (c : ascii) : bool := ((97 <=? code c) && (code c <=? 122))%N.

(** [toLowerCase] on one code unit: the ASCII capitals and the Latin-1
    capitals (all of 192..222 but the multiplication sign). *)
Definition toLowerCase (c : ascii) : ascii :=
  if isUpper c then ascii_of_N (code c + 32)
  else if ((192 <=? code c) && (code c <=? 222) && negb (code c =? 215))%N
       then ascii_of_N (code c + 32)
       else c.

Definition digitVal (c : ascii) : Z := Z.of_N (code c) - 48.

(** The value of a string of decimal digits, most significant first. *)
Fixpoint digitsFrom (acc : Z) (s : string) : Z :=
  match s with
  | EmptyString => acc
  | String c s' => digitsFrom (acc * 10 + digitVal c) s'
  end.

Definition digitsValue (s : string) : Z := digitsFrom 0 s.

Fixpoint allChars (p : ascii -> bool) (s : string) : bool :=
  match s with
  | EmptyString => true
  | String c s' => p c && allChars p s'
  end.

(** Longest prefix whose characters satisfy [p], and the rest. *)
Fixpoint span (p : ascii -> bool) (s : string) : string * string :=
  match s with
  | EmptyString => (EmptyString, EmptyString)
  | String c s' =>
      if p c then let (a, b) := span p s' in (String c a, b)
      else (EmptyString, s)
  end.

Definition isEmpty (s : string) : bool :=
  match s with EmptyString => true | _ => false end.

(* ===================================================================== *)
(** ** parseTimeSignature *)
(* ===================================================================== *)

Record TimeSignature : Type := {
  numerator : Z;
  denominator : Z;
  quarterBeatsPerMeasure : number;
  eighthsPerMeasure : whole
}.

(** [timeSig.match(/^(\d+)\s*\/\s*(\d+)$/)]: the two captured groups.  The
    three character classes are disjoint, so the greedy scan is the only
    way the expression can match. *)
Definition matchTimeSig (timeSig : string) : option (string * string) :=
  let (g1, r1) := span isDigit timeSig in
  if isEmpty g1 then None
  else
    match snd (span isSpace r1) with
    | String "/" r2 =>
        let (g2, r3) := span isDigit (snd (span isSpace r2)) in
        if isEmpty g2 then None
        else if isEmpty r3 then Some (g1, g2) else None
    | _ => None
    end.

Definition parseTimeSignature (timeSig : string) : TimeSignature :=
  match matchTimeSig timeSig with
  | None =>
      {| numerator := 4; denominator := 4;
         quarterBeatsPerMeasure := ofZ 4; eighthsPerMeasure := Whole 8 |}
  | Some (g1, g2) =>
      let numerator := digitsValue g1 in
      let denominator := digitsValue g2 in
      let quarterBeatsPerMeasure := toFixed2 (divide (numerator * 4) denominator) in
      let eighthsPerMeasure := Math_round (times2 quarterBeatsPerMeasure) in
      {| numerator := numerator; denominator := denominator;
         quarterBeatsPerMeasure := quarterBeatsPerMeasure;
         eighthsPerMeasure := eighthsPerMeasure |}
  end.

Definition timeSignatureOptions : list string :=
  ["4/4"; "3/4"; "2/4"; "6/8"; "12/8"; "5/4"; "7/8"].

(* ===================================================================== *)
(** ** parsePitch *)
(* ===================================================================== *)

Record PitchInfo : Type := {
  midi : Z;
  octave : Z;
  note : string
}.

(** [[A-G]] under the [i] flag. *)
Definition isNoteLetter (c : ascii) : bool :=
  ((65 <=? code c) && (code c <=? 71) || (97 <=? code c) && (code c <=? 103))%N.

(** [[#b]] under the [i] flag: the capital B is accepted too. *)
Definition isAccidentalChar (c : ascii) : bool :=
  ((code c =? 35) || (code c =? 98) || (code c =? 66))%N.

(** The match of [pitch] against the expression of [parsePitch]: one letter
    A-G, any run of sharps and flats, one or more digits, all under the [i]
    flag; the three captured groups. *)
Definition matchPitch (pitch : string) : option (ascii * string * string) :=
  match pitch with
  | EmptyString => None
  | String c r =>
      if isNoteLetter c then
        let (g2, r1) := span isAccidentalChar r in
        let (g3, r2) := span isDigit r1 in
        if isEmpty g3 then None
        else if isEmpty r2 then Some (c, g2, g3) else None
      else None
  end.

(** The table [baseOffsets], looked up with a one-character property name. *)
Definition baseOffsets (letter : ascii) : option Z :=
  match letter with
  | "c"%char => Some 0
  | "d"%char => Some 2
  | "e"%char => Some 4
  | "f"%char => Some 5
  | "g"%char => Some 7
  | "a"%char => Some 9
  | "b"%char => Some 11
  | _ => None
  end.

(** The chain of comparisons that sets [accidentalOffset]. *)
Definition accidentalOffset (accidentals : string) : Z :=
  if String.eqb accidentals "#" then 1
  else if String.eqb accidentals "##" then 2
  else if String.eqb accidentals "b" then -1
  else if String.eqb accidentals "bb" then -2
  else 0.

Definition parsePitch (pitch : string) : option PitchInfo :=
  match matchPitch pitch with
  | None => None
  | Some (g1, g2, g3) =>
      let letter := toLowerCase g1 in
      let accidentals := g2 in
      let octave := digitsValue g3 in
      let base := match baseOffsets letter with Some b => b | None => 0 end in
      let midi := (octave + 1) * 12 + base + accidentalOffset accidentals in
      Some {| midi := midi; octave := octave; note := String letter EmptyString |}
  end.

(* ===================================================================== *)
(** ** Number(string) *)
(* ===================================================================== *)

Definition reverse (s : string) : string :=
  string_of_list_ascii (rev (list_ascii_of_string s)).

Definition trimStart (s : string) : string := snd (span isSpace s).

Definition trim (s : string) : string := reverse (trimStart (reverse (trimStart s))).

(** [m * 10^e] as an exact number. *)
Definition scale10 (m e : Z) : Q :=
  if 0 <=? e then inject_Z (m * 10 ^ e)
  else Qred (Qmake m (Z.to_pos (10 ^ (- e)))).

(** What follows the mantissa: nothing, or [e], an optional sign and digits. *)
Definition parseExponent (s : string) : option Z :=
  match s with
  | EmptyString => Some 0
  | String c r =>
      if ((code c =? 101) || (code c =? 69))%N then
        let '(sign, ds) :=
          match r with
          | String "+" r' => (1, r')
          | String "-" r' => (-1, r')
          | _ => (1, r)
          end in
        if isEmpty ds then None
        else if allChars isDigit ds then Some (sign * digitsValue ds) else None
      else None
  end.

(** StrUnsignedDecimalLiteral. *)
Definition parseUnsignedDecimal (s : string) : option number :=
  if String.eqb s "Infinity" then Some PosInf
  else
    let (ip, r1) := span isDigit s in
    let (fp, r2) :=
      match r1 with
      | String "." r => span isDigit r
      | _ => (EmptyString, r1)
      end in
    if isEmpty ip && isEmpty fp then None
    else
      match parseExponent r2 with
      | None => None
      | Some e => Some (Num (scale10 (digitsValue (ip ++ fp)) (e - Z.of_nat (String.length fp))))
      end.

Definition radixDigit (radix : Z) (c : ascii) : option Z :=
  let v :=
    if isDigit c then digitVal c
    else if isLower c then Z.of_N (code c) - 87
    else if isUpper c then Z.of_N (code c) - 55
    else radix in
  if v <? radix then Some v else None.

Fixpoint radixFrom (radix acc : Z) (s : string) : option Z :=
  match s with
  | EmptyString => Some acc
  | String c s' =>
      match radixDigit radix c with
      | Some v => radixFrom radix (acc * radix + v) s'
      | None => None
      end
  end.

(** NonDecimalIntegerLiteral: [0x], [0o] and [0b] literals. *)
Definition parseNonDecimal (s : string) : option Z :=
  match s with
  | String "0" (String c (String d r)) =>
      let body := String d r in
      if ((code c =? 120) || (code c =? 88))%N then radixFrom 16 0 body
      else if ((code c =? 111) || (code c =? 79))%N then radixFrom 8 0 body
      else if ((code c =? 98) || (code c =? 66))%N then radixFrom 2 0 body
      else None
  | _ => None
  end.

Definition negate (x : number) : number :=
  match x with
  | Num q => Num (Qred (- q))
  | PosInf => NegInf
  | NegInf => PosInf
  | NaN => NaN
  end.

Definition orNaN (x : option number) : number :=
  match x with Some n => n | None => NaN end.

(** [Number(s)] for a string [s] (StringToNumber). *)
Definition StringToNumber (s : string) : number :=
  let t := trim s in
  if isEmpty t then ofZ 0
  else
    match parseNonDecimal t with
    | Some z => ofZ z
    | None =>
        match t with
        | String "+" r => orNaN (parseUnsignedDecimal r)
        | String "-" r => negate (orNaN (parseUnsignedDecimal r))
        | _ => orNaN (parseUnsignedDecimal t)
        end
    end.

(* ===================================================================== *)
(** ** Arithmetic and comparison of numbers *)
(* ===================================================================== *)

Definition plus (x y : number) : number :=
  match x, y with
  | NaN, _ | _, NaN => NaN
  | PosInf, NegInf | NegInf, PosInf => NaN
  | PosInf, _ | _, PosInf => PosInf
  | NegInf, _ | _, NegInf => NegInf
  | Num a, Num b => Num (Qred (a + b))
  end.

Definition signOf (a : Q) : Z := Z.sgn (Qnum a).

Definition times (x y : number) : number :=
  match x, y with
  | NaN, _ | _, NaN => NaN
  | Num a, Num b => Num (Qred (a * b))
  | Num a, PosInf | PosInf, Num a =>
      if signOf a =? 0 then NaN else if 0 <? signOf a then PosInf else NegInf
  | Num a, NegInf | NegInf, Num a =>
      if signOf a =? 0 then NaN else if 0 <? signOf a then NegInf else PosInf
  | PosInf, PosInf | NegInf, NegInf => PosInf
  | PosInf, NegInf | NegInf, PosInf => NegInf
  end.

(** [x <= y] *)
Definition lessEq (x y : number) : bool :=
  match x, y with
  | NaN, _ | _, NaN => false
  | NegInf, _ => true
  | _, PosInf => true
  | PosInf, _ => false
  | _, NegInf => false
  | Num a, Num b => Qle_bool a b
  end.

(** [x >= y] *)
Definition greaterEq (x y : number) : bool := lessEq y x.

(* ===================================================================== *)
(** ** noteToMidi *)
(* ===================================================================== *)

Definition isSlash (c : ascii) : bool := (code c =? 47)%N.

(** [s.split('/')]: never empty. *)
Fixpoint split_slash (s : string) : list string :=
  match s with
  | EmptyString => [EmptyString]
  | String c s' =>
      if isSlash c then EmptyString :: split_slash s'
      else
        match split_slash s' with
        | first :: others => String c first :: others
        | [] => [String c EmptyString]
        end
  end.

Definition noteToMidi (noteKey : string) : number :=
  let parts := split_slash noteKey in
  let rawNote := nth 0 parts EmptyString in
  let octave :=
    match nth_error parts 1 with
    | Some octaveStr => StringToNumber octaveStr
    | None => NaN
    end in
  if isEmpty rawNote || Number_isNaN octave then ofZ 60
  else
    match rawNote with
    | EmptyString => ofZ 60
    | String c accidentals =>
        let letter := toLowerCase c in
        let base := match baseOffsets letter with Some b => b | None => 0 end in
        plus (plus (times (plus octave (ofZ 1)) (ofZ 12)) (ofZ base))
             (ofZ (accidentalOffset accidentals))
    end.

(* ===================================================================== *)
(** ** Notes, durations and the duration pool *)
(* ===================================================================== *)

(** ['q' | '8' | 'h'] *)
Inductive Duration : Type := Dq | D8 | Dh.

(** A property that can be absent, [null], or hold a value
    (the type [string | null] of an optional property). *)
Inductive nullable (A : Type) : Type :=
| undefined
| null
| value (a : A).
Arguments undefined {A}.
Arguments null {A}.
Arguments value {A} a.

Module NoteSpec.
Record t : Type := {
  key : string;
  accidental : nullable string;
  duration : Duration;
  isRest : option bool
}.
End NoteSpec.

Module Pool.
Record entry : Type := {
  duration : Duration;
  beats : Q;
  eighths : Z
}.
End Pool.

Definition durationPool : list Pool.entry :=
  [ {| Pool.duration := Dq; Pool.beats := 1; Pool.eighths := 2 |};
    {| Pool.duration := D8; Pool.beats := 1 # 2; Pool.eighths := 1 |};
    {| Pool.duration := Dh; Pool.beats := 2; Pool.eighths := 4 |} ].

(** The eighth-units of a duration, as the pool lists them. *)
Definition durationEighths (d : Duration) : Z :=
  match d with Dq => 2 | D8 => 1 | Dh => 4 end.

Definition measureEighths (measure : list NoteSpec.t) : Z :=
  fold_right (fun n acc => durationEighths (NoteSpec.duration n) + acc) 0 measure.

Definition baseNotes : list string := ["c"; "d"; "e"; "f"; "g"; "a"; "b"].

(* ===================================================================== *)
(** ** The two outside capabilities: key manager and random source *)
(* ===================================================================== *)

(** What [keyManager.selectNote] returns (the [change] flag is never read). *)
Record Selection : Type := {
  sel_note : string;
  sel_accidental : nullable string
}.

(** The VexFlow [KeyManager]: [new KeyManager(key)] may throw on a key it
    does not know, and [selectNote] may update the manager. *)
Class KeyManager (K : Type) : Type := {
  newKeyManager : string -> option K;
  selectNote : K -> string -> Selection * K
}.

(** A value of [Math.random()]: a number in [0, 1). *)
Definition inUnitInterval (x : Q) : bool := Qle_bool 0 x && negb (Qle_bool 1 x).

Record sample : Type := {
  sval : Q;
  sval_range : inUnitInterval sval = true
}.

(** The state the generator threads: the key manager and the number of
    random draws made so far. *)
Record gstate (K : Type) : Type := {
  km : K;
  draws : nat
}.
Arguments km {K} g.
Arguments draws {K} g.

Inductive outcome (A : Type) : Type :=
| Done (a : A)
| Throws
| Diverges.
Arguments Done {A} a.
Arguments Throws {A}.
Arguments Diverges {A}.

Definition Gen (K A : Type) : Type := gstate K -> A * gstate K.

Definition ret {K A : Type} (a : A) : Gen K A := fun s => (a, s).

Definition bind {K A B : Type} (c : Gen K A) (f : A -> Gen K B) : Gen K B :=
  fun s => let (a, s') := c s in f a s'.

Notation "x <- c1 ;; c2" := (bind c1 (fun x => c2))
  (at level 61, c1 at next level, right associativity).

Section Generator.

Context {K : Type} `{KeyManager K}.
Variable random : nat -> sample.

Definition Math_random : Gen K Q :=
  fun s => (sval (random (draws s)), {| km := km s; draws := S (draws s) |}).

Definition selectNoteM (letter : string) : Gen K Selection :=
  fun s => let (sel, k') := selectNote (km s) letter in
           (sel, {| km := k'; draws := draws s |}).

(** [items[Math.floor(Math.random() * items.length)]]; [dflt] stands for the
    [undefined] an empty array would give. *)
Definition randomChoice {T : Type} (dflt : T) (items : list T) : Gen K T :=
  r <- Math_random ;;
  ret (nth (Z.to_nat (Qfloor (r * inject_Z (Z.of_nat (length items))))) items dflt).

(** The loop of [weightedChoice]: the first item whose cumulative weight
    reaches [r], else the last item.  A missing weight makes the sum [NaN],
    which no comparison satisfies. *)
Fixpoint pickCumulative {T : Type} (dflt : T) (r acc : Q)
  (items : list T) (weights : list Q) : T :=
  match items with
  | [] => dflt
  | it :: items' =>
      match weights with
      | [] => last items' it
      | w :: weights' =>
          let acc' := (acc + w)%Q in
          if Qle_bool r acc' then it
          else match items' with
               | [] => it
               | _ => pickCumulative dflt r acc' items' weights'
               end
      end
  end.

Definition weightedChoice {T : Type} (dflt : T) (items : list T) (weights : list Q)
  : Gen K T :=
  let total := fold_left Qplus weights 0%Q in
  u <- Math_random ;;
  let r := (u * total)%Q in
  ret (pickCumulative dflt r 0%Q items weights).

(** [safeDensity], [densityRatio] and [restChance]. *)
Definition safeDensity (noteDensity : number) : Q :=
  match noteDensity with Num d => d | _ => 70%Q end.

Definition densityRatio (noteDensity : number) : Q :=
  Qmax 0 (Qmin 1 (safeDensity noteDensity / 100)).

Definition restChance (noteDensity : number) : Q :=
  Qmax 0 (Qmin (4 # 10) ((4 # 10) - densityRatio noteDensity * (35 # 100))).

(** [pitch ? parsePitch(pitch)?.midi ?? dflt : dflt] *)
Definition resolveMidi (pitch : option string) (dflt : Z) : Z :=
  match pitch with
  | None => dflt
  | Some p =>
      if isEmpty p then dflt
      else match parsePitch p with
           | Some info => midi info
           | None => dflt
           end
  end.

Definition octaveOverlaps (lowestMidi highestMidi oct : Z) : bool :=
  let minMidiInOctave := (oct + 1) * 12 in
  let maxMidiInOctave := (oct + 1) * 12 + 11 in
  (lowestMidi <=? maxMidiInOctave) && (minMidiInOctave <=? highestMidi).

Definition validOctavesFor (lowestMidi highestMidi : Z) : list Z :=
  let found := filter (octaveOverlaps lowestMidi highestMidi) [2; 3; 4; 5; 6; 7] in
  match found with
  | [] => [4]
  | _ => found
  end.

(** The weight the generator gives to one pool entry. *)
Definition weightOf (ratio : Q) (d : Pool.entry) : Q :=
  let shorterBoost := if Pool.eighths d <=? 1 then (1 + ratio * 2)%Q else 1%Q in
  let longerBoost := if 4 <=? Pool.eighths d then (1 + (1 - ratio) * 2)%Q else 1%Q in
  let midBoost := if Pool.eighths d =? 2 then (1 + ratio * (1 # 2))%Q else 1%Q in
  (1 * shorterBoost * longerBoost * midBoost)%Q.

(** [String(octave)] for an integer. *)
Definition stringOfZ (z : Z) : string :=
  DecimalString.NilZero.string_of_int (Z.to_int z).

(** The template [`${selection.note}/${octave}`]. *)
Definition noteKeyOf (selection : Selection) (octave : Z) : string :=
  sel_note selection ++ "/" ++ stringOfZ octave.

Section Pitch.

Variables lowestMidi highestMidi : Z.
Variable validOctaves : list Z.

(** [midi >= lowestMidi && midi <= highestMidi] *)
Definition inRange (m : number) : bool :=
  greaterEq m (ofZ lowestMidi) && lessEq m (ofZ highestMidi).

(** The rejection-sampling loop, with [budget] attempts left; the flag is
    [noteGenerated]. *)
Fixpoint sampleNote (budget : nat) (octave : Z) (selection : Selection)
  : Gen K (bool * Z * Selection) :=
  match budget with
  | O => ret (false, octave, selection)
  | S budget' =>
      octave' <- randomChoice 0 validOctaves ;;
      letter <- randomChoice EmptyString baseNotes ;;
      selection' <- selectNoteM letter ;;
      if inRange (noteToMidi (noteKeyOf selection' octave'))
      then ret (true, octave', selection')
      else sampleNote budget' octave' selection'
  end.

(** The inner loop of the exhaustive scan, over the letters. *)
Fixpoint scanLetters (testOctave : Z) (letters : list string)
  : Gen K (option Selection) :=
  match letters with
  | [] => ret None
  | testLetter :: rest =>
      testSelection <- selectNoteM testLetter ;;
      if inRange (noteToMidi (noteKeyOf testSelection testOctave))
      then ret (Some testSelection)
      else scanLetters testOctave rest
  end.

(** The outer loop of the exhaustive scan, over the candidate octaves. *)
Fixpoint scanOctaves (octaves : list Z) : Gen K (option (Z * Selection)) :=
  match octaves with
  | [] => ret None
  | testOctave :: rest =>
      hit <- scanLetters testOctave baseNotes ;;
      match hit with
      | Some testSelection => ret (Some (testOctave, testSelection))
      | None => scanOctaves rest
      end
  end.

(** [validOctaves[Math.floor(validOctaves.length / 2)]] *)
Definition middleOctave : Z :=
  nth (Nat.div (length validOctaves) 2) validOctaves 0.

(** The pitch of one event: sampling, then the scan, then the fallback. *)
Definition pickPitch : Gen K (Z * Selection) :=
  selection0 <- selectNoteM (nth 0 baseNotes EmptyString) ;;
  sampled <- sampleNote 50 (nth 0 validOctaves 0) selection0 ;;
  let '(noteGenerated, octave, selection) := sampled in
  if noteGenerated then ret (octave, selection)
  else
    scanned <- scanOctaves validOctaves ;;
    match scanned with
    | Some found => ret found
    | None =>
        selection' <- selectNoteM (nth 0 baseNotes EmptyString) ;;
        ret (middleOctave, selection')
    end.

End Pitch.

(** The rest the generator forces when no duration fits. *)
Definition forcedRest : NoteSpec.t :=
  {| NoteSpec.key := "b/4"; NoteSpec.accidental := undefined;
     NoteSpec.duration := D8; NoteSpec.isRest := Some true |}.

(** The loop [while (eighthsLeft > 0)] of one measure, for a finite
    [eighthsLeft]; [fuel] bounds the number of iterations. *)
Fixpoint fillMeasure (noteDensity : number) (lowestMidi highestMidi : Z)
  (validOctaves : list Z) (fuel : nat) (eighthsLeft : Z) (measure : list NoteSpec.t)
  (s : gstate K) : outcome (list NoteSpec.t * gstate K) :=
  if 0 <? eighthsLeft then
    match fuel with
    | O => Diverges
    | S fuel' =>
        let allowedDurations :=
          filter (fun d => Pool.eighths d <=? eighthsLeft) durationPool in
        match allowedDurations with
        | [] => Done ((measure ++ [forcedRest])%list, s)
        | first :: _ =>
            let weights := map (weightOf (densityRatio noteDensity)) allowedDurations in
            let (choice, s1) := weightedChoice first allowedDurations weights s in
            let '((octave, selection), s2) :=
              pickPitch lowestMidi highestMidi validOctaves s1 in
            let (u, s3) := Math_random s2 in
            let insertRest := negb (Qle_bool (restChance noteDensity) u) in
            let event :=
              {| NoteSpec.key := noteKeyOf selection octave;
                 NoteSpec.accidental := sel_accidental selection;
                 NoteSpec.duration := Pool.duration choice;
                 NoteSpec.isRest := Some insertRest |} in
            fillMeasure noteDensity lowestMidi highestMidi validOctaves fuel'
              (eighthsLeft - Pool.eighths choice) (measure ++ [event])%list s3
        end
    end
  else Done (measure, s).

(** One measure, from the value of [eighthsPerMeasure]: an infinite count
    is never used up, and no comparison with [NaN] holds. *)
Definition generateMeasure (noteDensity : number) (lowestMidi highestMidi : Z)
  (validOctaves : list Z) (eighthsPerMeasure : whole) (s : gstate K)
  : outcome (list NoteSpec.t * gstate K) :=
  match eighthsPerMeasure with
  | Whole z =>
      fillMeasure noteDensity lowestMidi highestMidi validOctaves (Z.to_nat z) z [] s
  | WholePosInf => Diverges
  | WholeNegInf | WholeNaN => Done ([], s)
  end.

(** The loop [for (let i = 0; i < bars; i += 1)], with [count] rounds left. *)
Fixpoint measuresLoop (noteDensity : number) (lowestMidi highestMidi : Z)
  (validOctaves : list Z) (eighthsPerMeasure : whole) (count : nat)
  (measures : list (list NoteSpec.t)) (s : gstate K)
  : outcome (list (list NoteSpec.t)) :=
  match count with
  | O => Done measures
  | S count' =>
      match generateMeasure noteDensity lowestMidi highestMidi validOctaves
              eighthsPerMeasure s with
      | Done (measure, s') =>
          measuresLoop noteDensity lowestMidi highestMidi validOctaves
            eighthsPerMeasure count' (measures ++ [measure])%list s'
      | Throws => Throws
      | Diverges => Diverges
      end
  end.

(** How many [i = 0, 1, 2, ...] satisfy [i < bars]; [None] when all do. *)
Definition barRounds (bars : number) : option nat :=
  match bars with
  | Num b => Some (Z.to_nat (Qceiling b))
  | PosInf => None
  | NegInf | NaN => Some O
  end.

Definition generateMeasures (key : string) (bars : number) (timeSig : string)
  (noteDensity : number) (lowestPitch highestPitch : option string)
  : outcome (list (list NoteSpec.t)) :=
  match newKeyManager key with
  | None => Throws
  | Some keyManager =>
      let eighthsPerMeasure := eighthsPerMeasure (parseTimeSignature timeSig) in
      let lowestMidi := resolveMidi lowestPitch 48 in
      let highestMidi := resolveMidi highestPitch 84 in
      let validOctaves := validOctavesFor lowestMidi highestMidi in
      match barRounds bars with
      | None => Diverges
      | Some count =>
          measuresLoop noteDensity lowestMidi highestMidi validOctaves
            eighthsPerMeasure count [] {| km := keyManager; draws := O |}
      end
  end.

End Generator.

(** A key manager for C major: every natural letter is in the scale, so
    [selectNote] returns it unchanged and the manager stays as it is. *)
#[export] Instance CMajor : KeyManager unit := {
  newKeyManager := fun key => if String.eqb key "C" then Some tt else None;
  selectNote := fun k letter =>
    ({| sel_note := letter; sel_accidental := undefined |}, k)
}.

(* ===================================================================== *)
(** ** Scores and their JSON snapshots *)
(* ===================================================================== *)

Module GeneratedScore.
Record t : Type := {
  id : string;
  key : string;
  bars : number;
  tempo : number;
  timeSig : string;
  measures : list (list NoteSpec.t);
  createdAt : number;
  noteDensity : number;
  highestPitch : option string;
  lowestPitch : option string
}.
End GeneratedScore.

(** A JSON value, as [JSON.parse] returns it and [JSON.stringify] reads it.
    The members of an object are listed as the text lists them. *)
Inductive json : Type :=
| JNull
| JBool (b : bool)
| JNum (x : Q)
| JStr (s : string)
| JArr (items : list json)
| JObj (members : list (string * json)).

(** The member of that name; the last one wins when a name is repeated. *)
Fixpoint lookupMember (name : string) (members : list (string * json)) : option json :=
  match members with
  | [] => None
  | (k, v) :: rest =>
      match lookupMember name rest with
      | Some found => Some found
      | None => if String.eqb k name then Some v else None
      end
  end.

(** [data.name]: [None] is [undefined]. *)
Definition prop (name : string) (data : json) : option json :=
  match data with
  | JObj members => lookupMember name members
  | _ => None
  end.

(** The truth value of an expression in a condition. *)
Definition truthy (v : option json) : bool :=
  match v with
  | None => false
  | Some JNull => false
  | Some (JBool b) => b
  | Some (JNum x) => negb (Qeq_bool x 0)
  | Some (JStr s) => negb (isEmpty s)
  | Some (JArr _) => true
  | Some (JObj _) => true
  end.

(** [typeof v === 'object'] for a value that is not [null]. *)
Definition isObject (v : json) : bool :=
  match v with
  | JArr _ | JObj _ => true
  | _ => false
  end.

(** Converting a parsed value to a primitive throws a [TypeError] when an
    object carries a member named [toString] (a parsed member is never a
    function), also inside the arrays that are joined on the way. *)
Fixpoint throwsToString (v : json) : bool :=
  match v with
  | JObj members => existsb (fun kv => String.eqb (fst kv) "toString") members
  | JArr items => existsb throwsToString items
  | _ => false
  end.

(** [Number(v)] when the conversion does not throw.  An array is joined
    first: the empty array gives the empty string, one element gives the
    text of that element, and more elements give a text with a comma. *)
Fixpoint toNumberValue (v : json) : number :=
  match v with
  | JNull => ofZ 0
  | JBool b => ofZ (if b then 1 else 0)
  | JNum x => Num x
  | JStr s => StringToNumber s
  | JObj _ => NaN
  | JArr [] => ofZ 0
  | JArr [e] =>
      match e with
      | JNull => ofZ 0
      | JBool _ => NaN
      | other => toNumberValue other
      end
  | JArr _ => NaN
  end.

(** [Number(v)] *)
Definition ToNumber (v : option json) : outcome number :=
  match v with
  | None => Done NaN
  | Some j => if throwsToString j then Throws else Done (toNumberValue j)
  end.

Definition durationName (d : Duration) : string :=
  match d with Dq => "q" | D8 => "8" | Dh => "h" end.

(** What [JSON.stringify] writes for a number: [null] when it is not finite. *)
Definition numberToJson (x : number) : json :=
  match x with
  | Num q => JNum q
  | _ => JNull
  end.

Definition optionalMember (name : string) (v : option json) : list (string * json) :=
  match v with
  | Some j => [(name, j)]
  | None => []
  end.

Definition noteToJson (n : NoteSpec.t) : json :=
  JObj ([("key", JStr (NoteSpec.key n))]
        ++ optionalMember "accidental"
             match NoteSpec.accidental n with
             | undefined => None
             | null => Some JNull
             | value a => Some (JStr a)
             end
        ++ [("duration", JStr (durationName (NoteSpec.duration n)))]
        ++ optionalMember "isRest" (option_map JBool (NoteSpec.isRest n)))%list.

(** The value [JSON.stringify(item)] serialises: absent properties are left
    out. *)
Definition scoreToJson (item : GeneratedScore.t) : json :=
  JObj ([("id", JStr (GeneratedScore.id item));
         ("key", JStr (GeneratedScore.key item));
         ("bars", numberToJson (GeneratedScore.bars item));
         ("tempo", numberToJson (GeneratedScore.tempo item));
         ("timeSig", JStr (GeneratedScore.timeSig item));
         ("noteDensity", numberToJson (GeneratedScore.noteDensity item))]
        ++ optionalMember "lowestPitch" (option_map JStr (GeneratedScore.lowestPitch item))
        ++ optionalMember "highestPitch" (option_map JStr (GeneratedScore.highestPitch item))
        ++ [("measures",
             JArr (map (fun m => JArr (map noteToJson m)) (GeneratedScore.measures item)));
            ("createdAt", numberToJson (GeneratedScore.createdAt item))])%list.

(* ===================================================================== *)
(** ** normalizeImportedScore *)
(* ===================================================================== *)

(** [v] when it is a non-empty string. *)
Definition nonEmptyString (v : option json) : option string :=
  match v with
  | Some (JStr s) => if isEmpty s then None else Some s
  | _ => None
  end.

Definition durationOf (v : option json) : option Duration :=
  match v with
  | Some (JStr s) =>
      if String.eqb s "q" then Some Dq
      else if String.eqb s "8" then Some D8
      else if String.eqb s "h" then Some Dh
      else None
  | _ => None
  end.

(** The body of the inner loop: one note, or [None] where the source
    returns [null].  The key of a rest and the accidental are read at their
    declared type [string]; a member of another type counts as absent. *)
Definition normalizeNote (note : json) : option NoteSpec.t :=
  if negb (isObject note) then None
  else
    match durationOf (prop "duration" note) with
    | None => None
    | Some duration =>
        let isRest := truthy (prop "isRest" note) in
        if negb isRest
           && match nonEmptyString (prop "key" note) with Some _ => false | None => true end
        then None
        else
          Some {| NoteSpec.key :=
                    match prop "key" note with Some (JStr k) => k | _ => "b/4" end;
                  NoteSpec.accidental :=
                    match prop "accidental" note with Some (JStr a) => value a | _ => null end;
                  NoteSpec.duration := duration;
                  NoteSpec.isRest := Some isRest |}
    end.

Fixpoint normalizeNotes (notes : list json) : option (list NoteSpec.t) :=
  match notes with
  | [] => Some []
  | note :: rest =>
      match normalizeNote note with
      | None => None
      | Some n =>
          match normalizeNotes rest with
          | None => None
          | Some ns => Some (n :: ns)
          end
      end
  end.

Fixpoint normalizeMeasures (measuresRaw : list json) : option (list (list NoteSpec.t)) :=
  match measuresRaw with
  | [] => Some []
  | JArr notes :: rest =>
      match normalizeNotes notes with
      | None => None
      | Some m =>
          match normalizeMeasures rest with
          | None => None
          | Some ms => Some (m :: ms)
          end
      end
  | _ :: _ => None
  end.

Definition andThen {A B : Type} (c : outcome A) (f : A -> outcome B) : outcome B :=
  match c with
  | Done a => f a
  | Throws => Throws
  | Diverges => Diverges
  end.

Notation "x <-- c1 ;;; c2" := (andThen c1 (fun x => c2))
  (at level 61, c1 at next level, right associativity).

(** [Number.isFinite(Number(v)) ? Number(v) : dflt] *)
Definition finiteOr (v : option json) (dflt : number) : outcome number :=
  x <-- ToNumber v ;;;
  Done (if Number_isFinite x then x else dflt).

(** [normalizeImportedScore(raw)]: [Done None] is the [null] result.
    [uuid] is what [crypto.randomUUID()] would return and [now] what
    [Date.now()] would.  [id] is read at its declared type [string]. *)
Definition normalizeImportedScore (uuid : string) (now : Z) (raw : json)
  : outcome (option GeneratedScore.t) :=
  if negb (isObject raw) then Done None
  else
    match nonEmptyString (prop "key" raw) with
    | None => Done None
    | Some key =>
        match nonEmptyString (prop "timeSig" raw) with
        | None => Done None
        | Some timeSig =>
            tempoNum <-- ToNumber (prop "tempo" raw) ;;;
            if negb (Number_isFinite tempoNum) then Done None
            else
              densityNum <-- finiteOr (prop "noteDensity" raw) (ofZ 70) ;;;
              let lowestPitchStr :=
                match prop "lowestPitch" raw with Some (JStr p) => p | _ => "C4" end in
              let highestPitchStr :=
                match prop "highestPitch" raw with Some (JStr p) => p | _ => "G5" end in
              match prop "measures" raw with
              | Some (JArr measuresRaw) =>
                  match normalizeMeasures measuresRaw with
                  | None => Done None
                  | Some normalizedMeasures =>
                      let count := Z.of_nat (length normalizedMeasures) in
                      barsNum <-- finiteOr (prop "bars" raw)
                                    (ofZ (if count =? 0 then 1 else count)) ;;;
                      createdAtNum <--
                        (if truthy (prop "createdAt" raw)
                         then finiteOr (prop "createdAt" raw) (ofZ now)
                         else Done (ofZ now)) ;;;
                      Done (Some
                        {| GeneratedScore.id :=
                             match nonEmptyString (prop "id" raw) with
                             | Some i => i
                             | None => uuid
                             end;
                           GeneratedScore.key := key;
                           GeneratedScore.bars := barsNum;
                           GeneratedScore.tempo := tempoNum;
                           GeneratedScore.timeSig := timeSig;
                           GeneratedScore.noteDensity := densityNum;
                           GeneratedScore.lowestPitch := Some lowestPitchStr;
                           GeneratedScore.highestPitch := Some highestPitchStr;
                           GeneratedScore.measures := normalizedMeasures;
                           GeneratedScore.createdAt := createdAtNum |})
                  end
              | _ => Done None
              end
        end
    end.

(* ===================================================================== *)
(** ** The application state and its handlers *)
(* ===================================================================== *)

Module App.
Record State : Type := {
  keySig : string;
  bars : number;
  tempo : number;
  timeSig : string;
  noteDensity : number;
  lowestPitch : string;
  highestPitch : string;
  score : option GeneratedScore.t;
  previousScore : option GeneratedScore.t;
  collection : list GeneratedScore.t;
  (** the item of [localStorage] under [STORAGE_KEY] *)
  stored : option json;
  (** the messages shown by [window.alert], oldest first *)
  alerts : list string
}.
End App.

(** [localStorage.setItem(STORAGE_KEY, JSON.stringify(items))] *)
Definition persistCollection (items : list GeneratedScore.t) : json :=
  JArr (map scoreToJson items).

Definition alert (message : string) (st : App.State) : App.State :=
  {| App.keySig := App.keySig st; App.bars := App.bars st; App.tempo := App.tempo st;
     App.timeSig := App.timeSig st; App.noteDensity := App.noteDensity st;
     App.lowestPitch := App.lowestPitch st; App.highestPitch := App.highestPitch st;
     App.score := App.score st; App.previousScore := App.previousScore st;
     App.collection := App.collection st; App.stored := App.stored st;
     App.alerts := (App.alerts st ++ [message])%list |}.

(** [setCollection(updated); persistCollection(updated)] *)
Definition setAndPersist (updated : list GeneratedScore.t) (st : App.State) : App.State :=
  {| App.keySig := App.keySig st; App.bars := App.bars st; App.tempo := App.tempo st;
     App.timeSig := App.timeSig st; App.noteDensity := App.noteDensity st;
     App.lowestPitch := App.lowestPitch st; App.highestPitch := App.highestPitch st;
     App.score := App.score st; App.previousScore := App.previousScore st;
     App.collection := updated; App.stored := Some (persistCollection updated);
     App.alerts := App.alerts st |}.

(** [collection.some((item) => item.id === score.id)] *)
Definition hasId (i : string) (items : list GeneratedScore.t) : bool :=
  existsb (fun item => String.eqb (GeneratedScore.id item) i) items.

Definition handleSave (st : App.State) : App.State :=
  match App.score st with
  | None => st
  | Some score =>
      if hasId (GeneratedScore.id score) (App.collection st)
      then alert "alerts.duplicate" st
      else
        let updated := firstn 30 (score :: App.collection st) in
        setAndPersist updated st
  end.


Definition orElse (v : option string) (dflt : string) : string :=
  match v with Some s => s | None => dflt end.



(** [[a-z0-9-]] under the [i] flag. *)
Definition isKeyChar (c : ascii) : bool :=
  isLower c || isUpper c || isDigit c || (code c =? 45)%N.

(** [key.replace(/[^a-z0-9-]+/gi, '_')]: every maximal run of other
    characters becomes one underscore; [inRun] tells that the run has
    already been replaced. *)
Fixpoint replaceRuns (inRun : bool) (s : string) : string :=
  match s with
  | EmptyString => EmptyString
  | String c s' =>
      if isKeyChar c then String c (replaceRuns false s')
      else if inRun then replaceRuns true s'
      else String "_" (replaceRuns true s')
  end.

Record download : Type := {
  filename : string;
  content : json
}.

Definition handleDownload (item : GeneratedScore.t) : download :=
  let safeKey := replaceRuns false (GeneratedScore.key item) in
  let filename :=
    "score-" ++ (if isEmpty safeKey then "untitled" else safeKey)
    ++ "-" ++ GeneratedScore.id item ++ ".json" in
  {| filename := filename; content := scoreToJson item |}.

Definition keyOptions : list string :=
  ["C"; "G"; "D"; "A"; "E"; "B"; "F#"; "C#"; "F"; "Bb"; "Eb"; "Ab"; "Db"; "Gb"; "Cb";
   "Am"; "Em"; "Bm"; "F#m"; "C#m"; "G#m"; "D#m"; "A#m"; "Dm"; "Gm"; "Cm"; "Fm";
   "Bbm"; "Ebm"; "Abm"].

(* ===================================================================== *)
(** ** Notions the statements refer to *)
(* ===================================================================== *)



Definition fourFour : TimeSignature :=
  {| numerator := 4; denominator := 4;
     quarterBeatsPerMeasure := ofZ 4; eighthsPerMeasure := Whole 8 |}.

(** The seven diatonic letters, with the offsets the specification lists. *)
Inductive Letter : Type := LC | LD | LE | LF | LG | LA | LB.

Definition letterOffset (l : Letter) : Z :=
  match l with
  | LC => 0 | LD => 2 | LE => 4 | LF => 5 | LG => 7 | LA => 9 | LB => 11
  end.

Definition upperOf (l : Letter) : ascii :=
  match l with
  | LC => "C" | LD => "D" | LE => "E" | LF => "F" | LG => "G" | LA => "A" | LB => "B"
  end%char.

Definition lowerOf (l : Letter) : ascii :=
  match l with
  | LC => "c" | LD => "d" | LE => "e" | LF => "f" | LG => "g" | LA => "a" | LB => "b"
  end%char.

(** The five accidentals the two conversions know. *)
Inductive Accidentals : Type := Natural | Sharp | DoubleSharp | Flat | DoubleFlat.

Definition accidentalText (a : Accidentals) : string :=
  match a with
  | Natural => "" | Sharp => "#" | DoubleSharp => "##" | Flat => "b" | DoubleFlat => "bb"
  end.

Definition accidentalShift (a : Accidentals) : Z :=
  match a with
  | Natural => 0 | Sharp => 1 | DoubleSharp => 2 | Flat => -1 | DoubleFlat => -2
  end.

(** The height the specification assigns to a pitch. *)
Definition heightOf (l : Letter) (a : Accidentals) (octave : Z) : Z :=
  (octave + 1) * 12 + letterOffset l + accidentalShift a.

Section Notions.
Context {K : Type} `{KeyManager K}.

(** The states a key manager can be in after any number of calls of
    [selectNote], starting from [k0]. *)
Inductive evolves (k0 : K) : K -> Prop :=
| evolves_refl : evolves k0 k0
| evolves_step (k : K) (letter : string) :
    evolves k0 k -> evolves k0 (snd (selectNote k letter)).

(** A note key is justified when its height is within the range, or when
    every combination of a candidate octave and a letter was found out of
    range by the key manager, in a state it went through, and the key is
    the letter c at the middle candidate octave. *)
Definition justified (keyManager : K) (lowestMidi highestMidi : Z)
  (validOctaves : list Z) (noteKey : string) : Prop :=
  inRange lowestMidi highestMidi (noteToMidi noteKey) = true
  \/ ((forall o l, In o validOctaves -> In l baseNotes ->
         exists k : K,
           evolves keyManager k
           /\ inRange lowestMidi highestMidi
                (noteToMidi (noteKeyOf (fst (selectNote k l)) o)) = false)
      /\ exists k : K,
           evolves keyManager k
           /\ noteKey = noteKeyOf (fst (selectNote k "c")) (middleOctave validOctaves)).

Definition eventJustified (keyManager : K) (lowestMidi highestMidi : Z)
  (validOctaves : list Z) (e : NoteSpec.t) : Prop :=
  justified keyManager lowestMidi highestMidi validOctaves (NoteSpec.key e).

(** A measure of [units] eighth-units made of justified events. *)
Definition measureOk (keyManager : K) (lowestMidi highestMidi : Z)
  (validOctaves : list Z) (units : Z) (m : list NoteSpec.t) : Prop :=
  measureEighths m = units
  /\ Forall (eventJustified keyManager lowestMidi highestMidi validOctaves) m.

End Notions.

(** The units a measure is filled with, for each value of [eighthsPerMeasure]
    on which the loop ends. *)
Definition unitsOf (eighths : whole) : Z :=
  match eighths with
  | Whole z => Z.max 0 z
  | _ => 0
  end.

(** A random source that cycles through five values. *)
Definition cyclicRandom (i : nat) : sample :=
  match (i mod 5)%nat with
  | 0%nat => {| sval := 0; sval_range := eq_refl |}
  | 1%nat => {| sval := 3 # 4; sval_range := eq_refl |}
  | 2%nat => {| sval := 1 # 3; sval_range := eq_refl |}
  | 3%nat => {| sval := 9 # 10; sval_range := eq_refl |}
  | _ => {| sval := 1 # 2; sval_range := eq_refl |}
  end.

Definition isUnderscore (c : ascii) : bool := (code c =? 95)%N.

(** Every character outside the set replaced by an underscore, one by one. *)
Fixpoint replaceEach (s : string) : string :=
  match s with
  | EmptyString => EmptyString
  | String c s' => String (if isKeyChar c then c else "_"%char) (replaceEach s')
  end.

(** A run of underscores shortened to one. *)
Fixpoint squeeze (s : string) : string :=
  match s with
  | EmptyString => EmptyString
  | String c s' =>
      match s' with
      | EmptyString => String c EmptyString
      | String c' _ =>
          if isUnderscore c && isUnderscore c' then squeeze s'
          else String c (squeeze s')
      end
  end.

(** A score the application can hold, parameterised by its key. *)
Definition scoreIn (key : string) : GeneratedScore.t :=
  {| GeneratedScore.id := "7d9f0c1e";
     GeneratedScore.key := key;
     GeneratedScore.bars := ofZ 1;
     GeneratedScore.tempo := ofZ 100;
     GeneratedScore.timeSig := "2/4";
     GeneratedScore.measures :=
       [[ {| NoteSpec.key := "c/4"; NoteSpec.accidental := undefined;
             NoteSpec.duration := Dh; NoteSpec.isRest := Some false |} ]];
     GeneratedScore.createdAt := ofZ 1700000000000;
     GeneratedScore.noteDensity := ofZ 70;
     GeneratedScore.highestPitch := Some "G5";
     GeneratedScore.lowestPitch := Some "C4" |}.

(** [setScore(next)] *)
Definition setScore (next : GeneratedScore.t) (st : App.State) : App.State :=
  {| App.keySig := App.keySig st; App.bars := App.bars st; App.tempo := App.tempo st;
     App.timeSig := App.timeSig st; App.noteDensity := App.noteDensity st;
     App.lowestPitch := App.lowestPitch st; App.highestPitch := App.highestPitch st;
     App.score := Some next; App.previousScore := App.previousScore st;
     App.collection := App.collection st; App.stored := App.stored st;
     App.alerts := App.alerts st |}.

(** Making each score of a list the active one and saving it, in turn. *)
Definition saveEach (scores : list GeneratedScore.t) (st : App.State) : App.State :=
  fold_left (fun acc next => handleSave (setScore next acc)) scores st.

(** The state of a fresh installation, with [active] as the active score. *)
Definition initialState (active : option GeneratedScore.t) : App.State :=
  {| App.keySig := "C"; App.bars := ofZ 4; App.tempo := ofZ 100;
     App.timeSig := "4/4"; App.noteDensity := ofZ 70;
     App.lowestPitch := "C4"; App.highestPitch := "G5";
     App.score := active; App.previousScore := None;
     App.collection := []; App.stored := None; App.alerts := [] |}.

(** The events a snapshot lists: the elements of the arrays in [measures]. *)
Definition snapshotEvents (raw : json) : list json :=
  match prop "measures" raw with
  | Some (JArr measuresRaw) =>
      flat_map (fun m => match m with JArr notes => notes | _ => [] end) measuresRaw
  | _ => []
  end.

Definition isArray (v : json) : bool :=
  match v with JArr _ => true | _ => false end.

(** The grounds on which an imported snapshot fails validation. *)
Definition failsValidation (raw : json) : Prop :=
  (* the key is absent or not a non-empty string *)
  nonEmptyString (prop "key" raw) = None
  (* the time signature is absent or not a non-empty string *)
  \/ nonEmptyString (prop "timeSig" raw) = None
  (* the tempo does not convert to a finite number *)
  \/ (forall x, ToNumber (prop "tempo" raw) = Done x -> Number_isFinite x = false)
  (* the measures are not an array of arrays *)
  \/ (forall measuresRaw, prop "measures" raw = Some (JArr measuresRaw) ->
        exists m, In m measuresRaw /\ isArray m = false)
  (* an event has a duration outside q, 8, h *)
  \/ (exists e, In e (snapshotEvents raw) /\ durationOf (prop "duration" e) = None)
  (* an event that is not a rest has no non-empty pitch string *)
  \/ (exists e, In e (snapshotEvents raw)
                /\ truthy (prop "isRest" e) = false
                /\ nonEmptyString (prop "key" e) = None).



(** A note as an import leaves it: an absent accidental has become [null]
    and an absent rest flag [false]; key, duration, the accidental's text
    and the truth of the rest flag are as they were. *)
Definition settled (n : NoteSpec.t) : NoteSpec.t :=
  {| NoteSpec.key := NoteSpec.key n;
     NoteSpec.accidental :=
       match NoteSpec.accidental n with
       | undefined => null
       | other => other
       end;
     NoteSpec.duration := NoteSpec.duration n;
     NoteSpec.isRest :=
       Some (match NoteSpec.isRest n with Some b => b | None => false end) |}.

(** A number after [JSON.stringify] and [Number]: a value that is not
    finite is written as [null], which converts to 0. *)
Definition finiteOrZero (x : number) : number :=
  match x with
  | Num q => Num q
  | _ => ofZ 0
  end.

(** A score that passes the validation of the import when written out:
    key and time signature are not empty, and no event other than a rest
    has an empty key. *)
Definition importable (s : GeneratedScore.t) : Prop :=
  GeneratedScore.key s <> ""
  /\ GeneratedScore.timeSig s <> ""
  /\ forall m e, In m (GeneratedScore.measures s) -> In e m ->
       NoteSpec.isRest e = Some true \/ NoteSpec.key e <> "".

(** A score stamped with the epoch itself. *)
Definition epochScore : GeneratedScore.t :=
  {| GeneratedScore.id := "51c0a8e4";
     GeneratedScore.key := "D";
     GeneratedScore.bars := ofZ 1;
     GeneratedScore.tempo := ofZ 96;
     GeneratedScore.timeSig := "2/4";
     GeneratedScore.measures :=
       [[ {| NoteSpec.key := "d/4"; NoteSpec.accidental := undefined;
             NoteSpec.duration := Dh; NoteSpec.isRest := Some false |} ]];
     GeneratedScore.createdAt := ofZ 0;
     GeneratedScore.noteDensity := ofZ 70;
     GeneratedScore.highestPitch := Some "G5";
     GeneratedScore.lowestPitch := Some "C4" |}.

(** ** generatePitchOptions *)

(** The pitches the two range selectors offer: fifteen spellings in each
    of the octaves 2 to 7. *)
Definition generatePitchOptions : list string :=
  let notes := ["C"; "C#"; "D"; "D#"; "Eb"; "E"; "F"; "F#"; "G"; "G#"; "Ab"; "A";
                "A#"; "Bb"; "B"] in
  let octaves := [2; 3; 4; 5; 6; 7] in
  flat_map (fun octave => map (fun note => note ++ stringOfZ octave) notes) octaves.

Definition pitchOptions : list string := generatePitchOptions.

(** Whether [parsePitch] reads an option as a height between the two bounds. *)
Definition parsesWithin (lowest highest : Z) (pitch : string) : bool :=
  match parsePitch pitch with
  | Some info => (lowest <=? midi info) && (midi info <=? highest)
  | None => false
  end.




(** ** Events of the generator *)

Section EventNotions.
Context {K : Type} `{KeyManager K}.

(** An octave and a selection the generator can arrive at: the octave is a
    candidate octave, and the selection is what the key manager of the
    active key answered, in a state it went through, for one of the seven
    letters. *)
Definition selectedBy (keyManager : K) (validOctaves : list Z)
  (octave : Z) (selection : Selection) : Prop :=
  exists k letter,
    evolves keyManager k /\ In letter baseNotes /\ In octave validOctaves
    /\ selection = fst (selectNote k letter).

(** The shape of an event: key and accidental come from one selection, and
    the rest flag is set. *)
Definition eventShape (keyManager : K) (validOctaves : list Z)
  (e : NoteSpec.t) : Prop :=
  exists octave selection,
    selectedBy keyManager validOctaves octave selection
    /\ NoteSpec.key e = noteKeyOf selection octave
    /\ NoteSpec.accidental e = sel_accidental selection
    /\ NoteSpec.isRest e <> None.

(** The event the generator falls back to: the first letter at the middle
    candidate octave. *)
Definition fallbackEvent (keyManager : K) (validOctaves : list Z)
  (e : NoteSpec.t) : Prop :=
  exists k, evolves keyManager k
            /\ NoteSpec.key e = noteKeyOf (fst (selectNote k "c")) (middleOctave validOctaves).

End EventNotions.

(** A random source that always answers the same value. *)
Definition constantRandom (u : sample) (i : nat) : sample := u.

Definition isRestEvent (e : NoteSpec.t) : bool :=
  match NoteSpec.isRest e with Some b => b | None => false end.

(** Whether some letter, taken as it is, lies within the range at some
    candidate octave. *)
Definition hasNatural (lowestMidi highestMidi : Z) : bool :=
  existsb (fun o =>
             existsb (fun l =>
                        inRange lowestMidi highestMidi
                          (noteToMidi (l ++ "/" ++ stringOfZ o)))
                     baseNotes)
          (validOctavesFor lowestMidi highestMidi).

(** The integers from [lo] on, [count] of them. *)
Definition integersFrom (lo : Z) (count : nat) : list Z :=
  map (fun i => lo + Z.of_nat i) (seq 0 count).

(** The running total [acc] of [weightedChoice] after the item of index [i]. *)
Definition cumulative (weights : list Q) (i : nat) : Q :=
  fold_left Qplus (firstn (S i) weights) 0%Q.

(** A draw of one half. *)
Definition half : sample := {| sval := 1 # 2; sval_range := eq_refl |}.

(** ** The other handlers of the component *)

(** The setters every handler that shows a stored score calls in the same
    order: the score itself, the editable parameters taken from it (an
    absent pitch bound read as C4 or G5), and the previous score. *)
Definition showScore (shown : GeneratedScore.t) (previous : option GeneratedScore.t)
  (st : App.State) : App.State :=
  {| App.keySig := GeneratedScore.key shown;
     App.bars := GeneratedScore.bars shown;
     App.tempo := GeneratedScore.tempo shown;
     App.timeSig := GeneratedScore.timeSig shown;
     App.noteDensity := GeneratedScore.noteDensity shown;
     App.lowestPitch := orElse (GeneratedScore.lowestPitch shown) "C4";
     App.highestPitch := orElse (GeneratedScore.highestPitch shown) "G5";
     App.score := Some shown;
     App.previousScore := previous;
     App.collection := App.collection st;
     App.stored := App.stored st;
     App.alerts := App.alerts st |}.

(** [setPreviousScore(previous)] *)
Definition setPreviousScore (previous : option GeneratedScore.t) (st : App.State)
  : App.State :=
  {| App.keySig := App.keySig st; App.bars := App.bars st; App.tempo := App.tempo st;
     App.timeSig := App.timeSig st; App.noteDensity := App.noteDensity st;
     App.lowestPitch := App.lowestPitch st; App.highestPitch := App.highestPitch st;
     App.score := App.score st; App.previousScore := previous;
     App.collection := App.collection st; App.stored := App.stored st;
     App.alerts := App.alerts st |}.

(** [handleLoad(id)]: the previous score is set whether or not the entry is
    found. *)
Definition handleLoad (id : string) (st : App.State) : App.State :=
  match find (fun item => String.eqb (GeneratedScore.id item) id) (App.collection st) with
  | Some found => showScore found (App.score st) st
  | None => setPreviousScore (App.score st) st
  end.

(** [handleDelete(id)] *)
Definition handleDelete (id : string) (st : App.State) : App.State :=
  let filtered :=
    filter (fun item => negb (String.eqb (GeneratedScore.id item) id))
           (App.collection st) in
  {| App.keySig := App.keySig st; App.bars := App.bars st; App.tempo := App.tempo st;
     App.timeSig := App.timeSig st; App.noteDensity := App.noteDensity st;
     App.lowestPitch := App.lowestPitch st; App.highestPitch := App.highestPitch st;
     App.score :=
       match App.score st with
       | Some score => if String.eqb (GeneratedScore.id score) id then None else Some score
       | None => None
       end;
     App.previousScore := App.previousScore st;
     App.collection := filtered;
     App.stored := Some (persistCollection filtered);
     App.alerts := App.alerts st |}.

(** [handleRevert()] *)
Definition handleRevert (st : App.State) : App.State :=
  match App.previousScore st with
  | None => st
  | Some previousScore => showScore previousScore (App.score st) st
  end.

Section Generate.
Context {K : Type} `{KeyManager K}.

(** [handleGenerate()], for one run of the random source; [uuid] is what
    [crypto.randomUUID()] returns and [now] what [Date.now()] returns. *)
Definition handleGenerate (random : nat -> sample) (uuid : string) (now : Z)
  (st : App.State) : outcome App.State :=
  measures <-- generateMeasures random (App.keySig st) (App.bars st) (App.timeSig st)
                 (App.noteDensity st)
                 (Some (App.lowestPitch st)) (Some (App.highestPitch st)) ;;;
  let nextScore :=
    {| GeneratedScore.id := uuid;
       GeneratedScore.key := App.keySig st;
       GeneratedScore.bars := App.bars st;
       GeneratedScore.tempo := App.tempo st;
       GeneratedScore.timeSig := App.timeSig st;
       GeneratedScore.noteDensity := App.noteDensity st;
       GeneratedScore.lowestPitch := Some (App.lowestPitch st);
       GeneratedScore.highestPitch := Some (App.highestPitch st);
       GeneratedScore.measures := measures;
       GeneratedScore.createdAt := ofZ now |} in
  Done {| App.keySig := App.keySig st; App.bars := App.bars st; App.tempo := App.tempo st;
          App.timeSig := App.timeSig st; App.noteDensity := App.noteDensity st;
          App.lowestPitch := App.lowestPitch st; App.highestPitch := App.highestPitch st;
          App.score := Some nextScore; App.previousScore := App.score st;
          App.collection := App.collection st; App.stored := App.stored st;
          App.alerts := App.alerts st |}.


End Generate.

(** [Math.min(x, y)] and [Math.max(x, y)] *)
Definition Math_min (x y : number) : number :=
  match x, y with
  | NaN, _ | _, NaN => NaN
  | NegInf, _ | _, NegInf => NegInf
  | PosInf, other | other, PosInf => other
  | Num a, Num b => if Qle_bool a b then Num a else Num b
  end.

Definition Math_max (x y : number) : number :=
  match x, y with
  | NaN, _ | _, NaN => NaN
  | PosInf, _ | _, PosInf => PosInf
  | NegInf, other | other, NegInf => other
  | Num a, Num b => if Qle_bool a b then Num b else Num a
  end.




Section Run.
Context {K : Type} `{KeyManager K}.



End Run.


(** What the import makes of the exported snapshot of a score. *)
Definition reimported (uuid : string) (now : Z) (s : GeneratedScore.t)
  : GeneratedScore.t :=
  {| GeneratedScore.id :=
       if isEmpty (GeneratedScore.id s) then uuid else GeneratedScore.id s;
     GeneratedScore.key := GeneratedScore.key s;
     GeneratedScore.bars := finiteOrZero (GeneratedScore.bars s);
     GeneratedScore.tempo := finiteOrZero (GeneratedScore.tempo s);
     GeneratedScore.timeSig := GeneratedScore.timeSig s;
     GeneratedScore.measures := map (map settled) (GeneratedScore.measures s);
     GeneratedScore.createdAt :=
       match GeneratedScore.createdAt s with
       | Num q => if Qeq_bool q 0 then ofZ now else Num q
       | _ => ofZ now
       end;
     GeneratedScore.noteDensity := finiteOrZero (GeneratedScore.noteDensity s);
     GeneratedScore.highestPitch := Some (orElse (GeneratedScore.highestPitch s) "G5");
     GeneratedScore.lowestPitch := Some (orElse (GeneratedScore.lowestPitch s) "C4") |}.

(** A score with its events as an import leaves them. *)
Definition settledScore (s : GeneratedScore.t) : GeneratedScore.t :=
  {| GeneratedScore.id := GeneratedScore.id s;
     GeneratedScore.key := GeneratedScore.key s;
     GeneratedScore.bars := GeneratedScore.bars s;
     GeneratedScore.tempo := GeneratedScore.tempo s;
     GeneratedScore.timeSig := GeneratedScore.timeSig s;
     GeneratedScore.measures := map (map settled) (GeneratedScore.measures s);
     GeneratedScore.createdAt := GeneratedScore.createdAt s;
     GeneratedScore.noteDensity := GeneratedScore.noteDensity s;
     GeneratedScore.highestPitch := GeneratedScore.highestPitch s;
     GeneratedScore.lowestPitch := GeneratedScore.lowestPitch s |}.



(** The score the import makes of [stringTempoSnapshot]. *)
Definition importedSnapshot : GeneratedScore.t :=
  {| GeneratedScore.id := "3b1f6a52"; GeneratedScore.key := "G";
     GeneratedScore.bars := ofZ 1; GeneratedScore.tempo := ofZ 120;
     GeneratedScore.timeSig := "3/4";
     GeneratedScore.measures :=
       [[ {| NoteSpec.key := "g/4"; NoteSpec.accidental := null;
             NoteSpec.duration := Dh; NoteSpec.isRest := Some false |};
          {| NoteSpec.key := "b/4"; NoteSpec.accidental := null;
             NoteSpec.duration := Dq; NoteSpec.isRest := Some false |} ]];
     GeneratedScore.createdAt := ofZ 1700000000900;
     GeneratedScore.noteDensity := ofZ 70;
     GeneratedScore.highestPitch := Some "G5";
     GeneratedScore.lowestPitch := Some "C4" |}.

(** ** loadCollection *)

(** What [localStorage.getItem(STORAGE_KEY)] holds: nothing (or the empty
    text), a text that [JSON.parse] rejects, or a text that parses. *)
Inductive storedText : Type :=
| NoText
| NotJsonText
| JsonText (parsed : json).

(** A property key that is an array index: the decimal text, without
    leading zeros, of an integer up to 2^32 - 2. *)
Definition isArrayIndex (k : string) : bool :=
  negb (isEmpty k) && allChars isDigit k
  && (String.eqb k "0" || negb (match k with String "0" _ => true | _ => false end))
  && (digitsValue k <=? 4294967294).

(** Defining a property on an object: the value is replaced where the key
    exists, and the property is added at the end where it does not. *)
Definition setMember (k : string) (v : json) (members : list (string * json))
  : list (string * json) :=
  if existsb (fun kv => String.eqb (fst kv) k) members
  then map (fun kv => if String.eqb (fst kv) k then (k, v) else kv) members
  else (members ++ [(k, v)])%list.

Fixpoint insertIndex (kv : string * json) (sorted : list (string * json))
  : list (string * json) :=
  match sorted with
  | [] => [kv]
  | x :: rest =>
      if digitsValue (fst kv) <=? digitsValue (fst x) then kv :: sorted
      else x :: insertIndex kv rest
  end.

(** The own properties of the object that [JSON.parse] builds from the
    members a text lists, in the order in which they are enumerated: the
    array indices in ascending order, then the other keys in the order of
    their first occurrence; a repeated key keeps its last value. *)
Definition ownProperties (members : list (string * json)) : list (string * json) :=
  let defined := fold_left (fun acc kv => setMember (fst kv) (snd kv) acc) members [] in
  (fold_right insertIndex [] (filter (fun kv => isArrayIndex (fst kv)) defined)
   ++ filter (fun kv => negb (isArrayIndex (fst kv))) defined)%list.

(** The elements of an array, or the characters of a text, as properties. *)
Definition indexed (items : list json) : list (string * json) :=
  combine (map (fun i => stringOfZ (Z.of_nat i)) (seq 0 (length items))) items.

(** The properties [{...item}] copies. *)
Definition spread (item : json) : list (string * json) :=
  match item with
  | JObj members => ownProperties members
  | JArr items => indexed items
  | JStr s => indexed (map (fun c => JStr (String c EmptyString)) (list_ascii_of_string s))
  | _ => []
  end.

(** [v ?? dflt] *)
Definition orDefault (v : option json) (dflt : json) : json :=
  match v with
  | None | Some JNull => dflt
  | Some x => x
  end.

(** The callback of [parsed.map]; reading a property of [null] throws. *)
Definition loadItem (item : json) : option json :=
  match item with
  | JNull => None
  | _ =>
      let timeSig := orDefault (prop "timeSig" item) (JStr "4/4") in
      let noteDensity :=
        match prop "noteDensity" item with
        | Some (JNum q) => JNum q
        | _ => JNum 70
        end in
      let lowestPitch := orDefault (prop "lowestPitch" item) (JStr "C4") in
      let highestPitch := orDefault (prop "highestPitch" item) (JStr "G5") in
      Some (JObj (setMember "highestPitch" highestPitch
                    (setMember "lowestPitch" lowestPitch
                       (setMember "noteDensity" noteDensity
                          (setMember "timeSig" timeSig (spread item))))))
  end.

Fixpoint loadItems (parsed : list json) : option (list json) :=
  match parsed with
  | [] => Some []
  | item :: rest =>
      match loadItem item with
      | None => None
      | Some loaded =>
          match loadItems rest with
          | None => None
          | Some others => Some (loaded :: others)
          end
      end
  end.

(** [loadCollection()]: whatever is thrown inside is caught and gives the
    empty library; a value without [map] (anything but an array) throws. *)
Definition loadCollection (text : storedText) : list json :=
  match text with
  | JsonText (JArr parsed) =>
      match loadItems parsed with
      | Some items => items
      | None => []
      end
  | _ => []
  end.


(** A score as the next start reads it: a density that was not finite was
    written as null and is read as 70. *)
Definition reloaded (s : GeneratedScore.t) : GeneratedScore.t :=
  {| GeneratedScore.id := GeneratedScore.id s;
     GeneratedScore.key := GeneratedScore.key s;
     GeneratedScore.bars := GeneratedScore.bars s;
     GeneratedScore.tempo := GeneratedScore.tempo s;
     GeneratedScore.timeSig := GeneratedScore.timeSig s;
     GeneratedScore.measures := GeneratedScore.measures s;
     GeneratedScore.createdAt := GeneratedScore.createdAt s;
     GeneratedScore.noteDensity :=
       if Number_isFinite (GeneratedScore.noteDensity s)
       then GeneratedScore.noteDensity s else ofZ 70;
     GeneratedScore.highestPitch := GeneratedScore.highestPitch s;
     GeneratedScore.lowestPitch := GeneratedScore.lowestPitch s |}.



(** ** drawScore: the layout of the staves *)

(** [x < y] *)
Definition lessThan (x y : number) : bool :=
  match x, y with
  | NaN, _ | _, NaN => false
  | Num a, Num b => negb (Qle_bool b a)
  | _, NegInf => false
  | NegInf, _ => true
  | PosInf, _ => false
  | _, PosInf => true
  end.

(** [x / y]; a zero divisor counts as the positive zero. *)
Definition quotient (x y : number) : number :=
  match x, y with
  | NaN, _ | _, NaN => NaN
  | Num a, Num b =>
      if Qeq_bool b 0
      then (if Qeq_bool a 0 then NaN else if Qle_bool 0 a then PosInf else NegInf)
      else Num (Qred (a / b))
  | Num _, _ => ofZ 0
  | PosInf, Num b => if Qle_bool 0 b then PosInf else NegInf
  | NegInf, Num b => if Qle_bool 0 b then NegInf else PosInf
  | _, _ => NaN
  end.

Definition Math_floor (x : number) : number :=
  match x with
  | Num q => ofZ (Qfloor q)
  | other => other
  end.

Definition Math_ceil (x : number) : number :=
  match x with
  | Num q => ofZ (Qceiling q)
  | other => other
  end.

(** The arguments of [new Stave(x, y, measureWidth)]. *)
Record Stave : Type := {
  stave_x : number;
  stave_y : number;
  stave_width : number
}.

(** The loop over the measures, with [count] measures left to place. *)
Fixpoint placeStaves (width measureWidth : number) (count : nat) (x y : number)
  : list Stave :=
  match count with
  | O => []
  | S count' =>
      let stave := {| stave_x := x; stave_y := y; stave_width := measureWidth |} in
      let x' := plus x measureWidth in
      if lessThan width (plus x' measureWidth)
      then stave :: placeStaves width measureWidth count' (ofZ 10) (plus y (ofZ 150))
      else stave :: placeStaves width measureWidth count' x' y
  end.

(** What [drawScore] hands to the renderer: the size of the drawing and
    the staves, one for each measure. *)
Record Drawing : Type := {
  svgWidth : Z;
  svgHeight : number;
  staves : list Stave
}.

(** [drawScore(score, container)] for a score and a container that are
    there; [clientWidth] is the width of the container, an integer. *)
Definition drawScore (clientWidth : Z) (score : GeneratedScore.t) : Drawing :=
  let width := if clientWidth =? 0 then 900 else clientWidth in
  let maxPerLine := Z.max 1 ((width - 20) / 170) in
  let perLine :=
    Math_max (ofZ 1) (Math_min (GeneratedScore.bars score) (ofZ maxPerLine)) in
  let measureWidth :=
    Math_max (ofZ 140) (Math_floor (quotient (ofZ (width - 20)) perLine)) in
  let lines := Math_ceil (quotient (GeneratedScore.bars score) perLine) in
  let height := times lines (ofZ 170) in
  {| svgWidth := width;
     svgHeight := height;
     staves := placeStaves (ofZ width) measureWidth
                 (length (GeneratedScore.measures score)) (ofZ 10) (ofZ 40) |}.


(** A score of [bars] measures, all empty. *)
Definition blankScore (bars : number) (count : nat) : GeneratedScore.t :=
  {| GeneratedScore.id := "a41c"; GeneratedScore.key := "C";
     GeneratedScore.bars := bars; GeneratedScore.tempo := ofZ 100;
     GeneratedScore.timeSig := "4/4"; GeneratedScore.measures := repeat [] count;
     GeneratedScore.createdAt := ofZ 1700000000000;
     GeneratedScore.noteDensity := ofZ 70;
     GeneratedScore.highestPitch := Some "G5";
     GeneratedScore.lowestPitch := Some "C4" |}.





(** ** handlePlay: the schedule of the tones *)

(** [durationToBeats] *)
Definition durationToBeats (d : Duration) : Q :=
  match d with
  | Dq => 1
  | D8 => 1 # 2
  | Dh => 2
  end.

(** [x - y] *)
Definition minus (x y : number) : number := plus x (negate y).

(** The arguments of one call of [scheduleTone]: start, duration, and the
    key whose frequency is played. *)
Record Tone : Type := {
  tone_start : number;
  tone_duration : number;
  tone_key : string
}.

(** The two nested loops over the events, from [cursor] on: the tones
    scheduled and the final value of [cursor]. *)
Fixpoint playNotes (secondsPerBeat : number) (notes : list NoteSpec.t) (cursor : number)
  : list Tone * number :=
  match notes with
  | [] => ([], cursor)
  | note :: rest =>
      let beats := durationToBeats (NoteSpec.duration note) in
      let durationSec := times (Num beats) secondsPerBeat in
      let (scheduled, final) := playNotes secondsPerBeat rest (plus cursor durationSec) in
      (if isRestEvent note then scheduled
       else {| tone_start := cursor; tone_duration := durationSec;
               tone_key := NoteSpec.key note |} :: scheduled,
       final)
  end.

Record Playback : Type := {
  tones : list Tone;
  (** the delay after which [isPlaying] is reset is [totalMs + 50] *)
  totalMs : number
}.

(** [handlePlay()]: nothing happens without a score or while playing;
    [currentTime] is the clock of the new audio context. *)
Definition handlePlay (currentTime : number) (isPlaying : bool)
  (score : option GeneratedScore.t) : option Playback :=
  match score with
  | None => None
  | Some score =>
      if isPlaying then None
      else
        let secondsPerBeat := quotient (ofZ 60) (GeneratedScore.tempo score) in
        let (scheduled, cursor) :=
          playNotes secondsPerBeat (concat (GeneratedScore.measures score))
            (plus currentTime (Num (1 # 10))) in
        Some {| tones := scheduled;
                totalMs :=
                  Math_max (ofZ 0)
                    (Math_ceil (times (minus cursor currentTime) (ofZ 1000))) |}
  end.



(* ===================================================================== *)
(** * Properties *)
(* ===================================================================== *)

(** ** Strings *)

Lemma append_empty_r (s : string) : s ++ "" = s.
Proof. induction s as [|c s IH]; simpl; [reflexivity | now rewrite IH]. Qed.


Lemma isEmpty_false (s : string) : isEmpty s = false <-> s <> "".
Proof. destruct s; simpl; split; congruence. Qed.


(** Conversely a prefix that satisfies the test, followed by a rest that
    does not start with such a character, is what [span] finds. *)
Lemma span_app (p : ascii -> bool) (a b : string) :
  allChars p a = true ->
  match b with String c _ => p c = false | EmptyString => True end ->
  span p (a ++ b) = (a, b).
Proof.
  induction a as [|c a IH]; simpl; intros Ha Hb.
  - destruct b as [|c b]; simpl; [reflexivity | now rewrite Hb].
  - apply andb_prop in Ha as [Pc Ha]. rewrite Pc, (IH Ha Hb). reflexivity.
Qed.

(** Comparisons of character codes, turned into arithmetic. *)
Ltac code_arith :=
  unfold isDigit, isSpace, isUpper, isLower, isNoteLetter, isAccidentalChar in *;
  repeat match goal with
         | |- context [(?a <=? ?b)%N] => destruct (N.leb_spec a b)
         | H : context [(?a <=? ?b)%N] |- _ => destruct (N.leb_spec a b)
         | |- context [(?a =? ?b)%N] => destruct (N.eqb_spec a b)
         | H : context [(?a =? ?b)%N] |- _ => destruct (N.eqb_spec a b)
         end;
  simpl in *; try discriminate; try reflexivity; try lia.

Lemma digit_not_space (c : ascii) : isDigit c = true -> isSpace c = false.
Proof. intros E. code_arith. Qed.

(** ** parseTimeSignature *)

(** The scan accepts exactly the strings of the time-signature shape. *)
Lemma matchTimeSig_shape (g1 ws1 ws2 g2 : string) :
  g1 <> "" -> allChars isDigit g1 = true ->
  allChars isSpace ws1 = true -> allChars isSpace ws2 = true ->
  g2 <> "" -> allChars isDigit g2 = true ->
  matchTimeSig (g1 ++ ws1 ++ "/" ++ ws2 ++ g2) = Some (g1, g2).
Proof.
  intros N1 D1 S1 S2 N2 D2. unfold matchTimeSig.
  assert (Hg2 : match g2 with String c _ => isSpace c = false | EmptyString => True end).
  { destruct g2 as [|c g2]; [congruence|]. simpl in D2.
    apply andb_prop in D2 as [Dc _]. now apply digit_not_space. }
  assert (E1 : span isDigit (g1 ++ ws1 ++ "/" ++ ws2 ++ g2) = (g1, ws1 ++ "/" ++ ws2 ++ g2)).
  { apply span_app; [assumption|].
    destruct ws1 as [|c ws1]; simpl; [reflexivity|].
    simpl in S1. apply andb_prop in S1 as [Sc _].
    destruct (isDigit c) eqn:Dc; [|reflexivity].
    apply digit_not_space in Dc. congruence. }
  rewrite E1. apply isEmpty_false in N1. rewrite N1.
  rewrite (span_app isSpace ws1 ("/" ++ ws2 ++ g2) S1) by reflexivity.
  simpl.
  rewrite (span_app isSpace ws2 g2 S2 Hg2). simpl.
  rewrite <- (append_empty_r g2) at 1.
  rewrite (span_app isDigit g2 "" D2 I).
  apply isEmpty_false in N2. rewrite N2. reflexivity.
Qed.



Lemma digitsFrom_nonneg (s : string) (acc : Z) :
  allChars isDigit s = true -> 0 <= acc -> 0 <= digitsFrom acc s.
Proof.
  revert acc; induction s as [|c s IH]; simpl; intros acc D A; [assumption|].
  apply andb_prop in D as [Dc D]. apply IH; [assumption|].
  unfold digitVal. code_arith.
Qed.

Lemma digitsValue_nonneg (s : string) :
  allChars isDigit s = true -> 0 <= digitsValue s.
Proof. intros D. apply digitsFrom_nonneg; [assumption | lia]. Qed.




Lemma parseTimeSignature_matched (s g1 g2 : string) :
  matchTimeSig s = Some (g1, g2) ->
  parseTimeSignature s
  = {| numerator := digitsValue g1;
       denominator := digitsValue g2;
       quarterBeatsPerMeasure := toFixed2 (divide (digitsValue g1 * 4) (digitsValue g2));
       eighthsPerMeasure :=
         Math_round (times2 (toFixed2 (divide (digitsValue g1 * 4) (digitsValue g2)))) |}.
Proof. intros E. unfold parseTimeSignature. rewrite E. reflexivity. Qed.

(** C3, as the specification words it, fails at ["6/8"]: the code counts
    six eighth-units there, not twelve. *)
Lemma parseTimeSignature_six_eight_not_twelve :
  eighthsPerMeasure (parseTimeSignature "6/8") <> Whole 12.
Proof. vm_compute. discriminate. Qed.

(** C3 (amended): [parseTimeSignature] returns 6 eighth-units for ["6/8"],
    8 for ["4/4"], 10 for ["5/4"], and the 4/4 fallback with 8 units for the
    malformed ["abc"]. *)
Theorem parseTimeSignature_examples :
  eighthsPerMeasure (parseTimeSignature "6/8") = Whole 6
  /\ eighthsPerMeasure (parseTimeSignature "4/4") = Whole 8
  /\ eighthsPerMeasure (parseTimeSignature "5/4") = Whole 10
  /\ parseTimeSignature "abc" = fourFour.
Proof. repeat split; vm_compute; reflexivity. Qed.





(** ** parsePitch *)

Lemma span_all (p : ascii -> bool) (s : string) :
  allChars p s = true -> span p s = (s, "").
Proof.
  intros A. rewrite <- (append_empty_r s) at 1. now apply span_app.
Qed.

Lemma span_none (p : ascii -> bool) (c : ascii) (s : string) :
  p c = false -> span p (String c s) = ("", String c s).
Proof. intros E. simpl. now rewrite E. Qed.

Lemma digit_not_accidental (c : ascii) : isDigit c = true -> isAccidentalChar c = false.
Proof. intros E. code_arith. Qed.

Lemma parsePitch_wellformed (l : Letter) (capital : bool) (a : Accidentals) (ds : string) :
  ds <> "" -> allChars isDigit ds = true ->
  parsePitch (String (if capital then upperOf l else lowerOf l) (accidentalText a ++ ds))
  = Some {| midi := heightOf l a (digitsValue ds);
            octave := digitsValue ds;
            note := String (lowerOf l) "" |}.
Proof.
  intros N D. unfold parsePitch, matchPitch.
  assert (L : isNoteLetter (if capital then upperOf l else lowerOf l) = true)
    by (destruct l, capital; reflexivity).
  rewrite L.
  rewrite (span_app isAccidentalChar (accidentalText a) ds).
  - rewrite (span_all isDigit ds D).
    apply isEmpty_false in N. rewrite N. simpl isEmpty. cbv iota beta.
    assert (T : toLowerCase (if capital then upperOf l else lowerOf l) = lowerOf l)
      by (destruct l, capital; reflexivity).
    rewrite T.
    assert (B : baseOffsets (lowerOf l) = Some (letterOffset l))
      by (destruct l; reflexivity).
    rewrite B.
    assert (A : accidentalOffset (accidentalText a) = accidentalShift a)
      by (destruct a; reflexivity).
    rewrite A. reflexivity.
  - destruct a; reflexivity.
  - destruct ds as [|c ds]; [congruence|]. simpl in D.
    apply andb_prop in D as [Dc _]. now apply digit_not_accidental.
Qed.



(** ** Number(string) on digit strings *)

Lemma allChars_list (p : ascii -> bool) (s : string) :
  allChars p s = forallb p (list_ascii_of_string s).
Proof. induction s as [|c s IH]; simpl; [reflexivity | now rewrite IH]. Qed.

Lemma allChars_of_list (p : ascii -> bool) (l : list ascii) :
  allChars p (string_of_list_ascii l) = forallb p l.
Proof. now rewrite allChars_list, list_ascii_of_string_of_list_ascii. Qed.

Lemma forallb_rev {A} (p : A -> bool) (l : list A) : forallb p (rev l) = forallb p l.
Proof.
  induction l as [|x l IH]; simpl; [reflexivity|].
  rewrite forallb_app, IH. simpl. rewrite andb_true_r. apply andb_comm.
Qed.

Lemma allChars_reverse (p : ascii -> bool) (s : string) :
  allChars p (reverse s) = allChars p s.
Proof. unfold reverse. now rewrite allChars_of_list, forallb_rev, <- allChars_list. Qed.

Lemma reverse_involutive (s : string) : reverse (reverse s) = s.
Proof.
  unfold reverse. rewrite list_ascii_of_string_of_list_ascii, rev_involutive.
  apply string_of_list_ascii_of_string.
Qed.

Lemma reverse_nonempty (s : string) : s <> "" -> reverse s <> "".
Proof.
  intros N E. apply N. rewrite <- (reverse_involutive s), E. reflexivity.
Qed.

Lemma trimStart_digits (s : string) :
  allChars isDigit s = true -> trimStart s = s.
Proof.
  intros D. unfold trimStart. destruct s as [|c s]; [reflexivity|].
  simpl in D. apply andb_prop in D as [Dc _].
  rewrite span_none by now apply digit_not_space. reflexivity.
Qed.

Lemma trim_digits (s : string) : allChars isDigit s = true -> trim s = s.
Proof.
  intros D. unfold trim. rewrite (trimStart_digits s D).
  rewrite trimStart_digits by now rewrite allChars_reverse.
  apply reverse_involutive.
Qed.

Lemma parseNonDecimal_digits (s : string) :
  allChars isDigit s = true -> parseNonDecimal s = None.
Proof.
  intros D. unfold parseNonDecimal.
  destruct s as [|c0 s]; [reflexivity|].
  destruct c0 as [[] [] [] [] [] [] [] []]; try reflexivity.
  destruct s as [|c [|d r]]; try reflexivity.
  cbn [allChars] in D. apply andb_prop in D as [_ D]. apply andb_prop in D as [Dc _].
  assert (X : ((code c =? 120) || (code c =? 88))%N = false) by code_arith.
  assert (O : ((code c =? 111) || (code c =? 79))%N = false) by code_arith.
  assert (B : ((code c =? 98) || (code c =? 66))%N = false) by code_arith.
  rewrite X, O, B. reflexivity.
Qed.

Lemma parseUnsignedDecimal_digits (s : string) :
  s <> "" -> allChars isDigit s = true ->
  parseUnsignedDecimal s = Some (ofZ (digitsValue s)).
Proof.
  intros N D. unfold parseUnsignedDecimal.
  assert (E : String.eqb s "Infinity" = false).
  { apply String.eqb_neq. intros ->. discriminate. }
  rewrite E, (span_all isDigit s D).
  apply isEmpty_false in N. rewrite N. simpl.
  rewrite append_empty_r. unfold scale10. simpl.
  rewrite Z.mul_1_r. reflexivity.
Qed.

Lemma StringToNumber_digits (s : string) :
  s <> "" -> allChars isDigit s = true ->
  StringToNumber s = ofZ (digitsValue s).
Proof.
  intros N D. unfold StringToNumber.
  rewrite (trim_digits s D), (parseNonDecimal_digits s D).
  pose proof N as N'. apply isEmpty_false in N'. rewrite N'.
  rewrite (parseUnsignedDecimal_digits s N D).
  destruct s as [|c s]; [congruence|].
  simpl in D. apply andb_prop in D as [Dc _].
  destruct c as [[] [] [] [] [] [] [] []]; try reflexivity; discriminate.
Qed.

(** ** Arithmetic on integral numbers *)

Lemma Qred_inject_Z (z : Z) : Qred (inject_Z z) = inject_Z z.
Proof.
  unfold Qred, inject_Z.
  pose proof (Z.ggcd_gcd z 1) as G. pose proof (Z.ggcd_correct_divisors z 1) as C.
  destruct (Z.ggcd z 1) as [g [a b]]. simpl in *.
  rewrite Z.gcd_1_r in G. subst g. destruct C as [-> C].
  rewrite !Z.mul_1_l in *. subst b. reflexivity.
Qed.

Lemma plus_ofZ (a b : Z) : plus (ofZ a) (ofZ b) = ofZ (a + b).
Proof.
  unfold plus, ofZ. f_equal.
  rewrite <- (Qred_inject_Z (a + b)). apply Qred_complete.
  now rewrite inject_Z_plus.
Qed.

Lemma times_ofZ (a b : Z) : times (ofZ a) (ofZ b) = ofZ (a * b).
Proof.
  unfold times, ofZ. f_equal.
  rewrite <- (Qred_inject_Z (a * b)). apply Qred_complete.
  now rewrite inject_Z_mult.
Qed.

(** ** noteToMidi *)

Lemma split_slash_plain (s : string) :
  allChars (fun c => negb (isSlash c)) s = true -> split_slash s = [s].
Proof.
  induction s as [|c s IH]; simpl; intros A; [reflexivity|].
  apply andb_prop in A as [Ac A].
  apply negb_true_iff in Ac. rewrite Ac, (IH A). reflexivity.
Qed.

Lemma split_slash_app (a b : string) :
  allChars (fun c => negb (isSlash c)) a = true ->
  split_slash (a ++ String "/" b) = a :: split_slash b.
Proof.
  induction a as [|c a IH]; simpl; intros A; [reflexivity|].
  apply andb_prop in A as [Ac A].
  apply negb_true_iff in Ac. rewrite Ac, (IH A). reflexivity.
Qed.

Lemma digits_no_slash (s : string) :
  allChars isDigit s = true -> allChars (fun c => negb (isSlash c)) s = true.
Proof.
  induction s as [|c s IH]; simpl; intros D; [reflexivity|].
  apply andb_prop in D as [Dc D]. rewrite (IH D), andb_true_r.
  unfold isSlash. code_arith.
Qed.

Lemma noteToMidi_wellformed (l : Letter) (a : Accidentals) (ds : string) :
  ds <> "" -> allChars isDigit ds = true ->
  noteToMidi (String (lowerOf l) (accidentalText a ++ "/" ++ ds))
  = ofZ (heightOf l a (digitsValue ds)).
Proof.
  intros N D. unfold noteToMidi.
  change (String (lowerOf l) (accidentalText a ++ "/" ++ ds))
    with ((String (lowerOf l) (accidentalText a)) ++ String "/" ds).
  rewrite split_slash_app by (destruct l, a; reflexivity).
  rewrite (split_slash_plain ds (digits_no_slash ds D)).
  cbn [nth nth_error]. rewrite (StringToNumber_digits ds N D).
  cbn [isEmpty Number_isNaN ofZ orb].
  assert (T : toLowerCase (lowerOf l) = lowerOf l) by (destruct l; reflexivity).
  assert (B : baseOffsets (lowerOf l) = Some (letterOffset l)) by (destruct l; reflexivity).
  assert (A : accidentalOffset (accidentalText a) = accidentalShift a)
    by (destruct a; reflexivity).
  rewrite T, B, A. fold (ofZ (digitsValue ds)).
  rewrite plus_ofZ, times_ofZ, !plus_ofZ. reflexivity.
Qed.

(** C10: the two conversions agree.  For every diatonic letter, every
    accidental among none, #, ##, b, bb and every octave written in digits,
    [parsePitch] on letter-accidental-octave succeeds and [noteToMidi] on
    letter-accidental-slash-octave returns the same height. *)
Theorem parsePitch_noteToMidi_agree (l : Letter) (a : Accidentals) (ds : string) :
  ds <> "" -> allChars isDigit ds = true ->
  exists p,
    parsePitch (String (upperOf l) (accidentalText a ++ ds)) = Some p
    /\ noteToMidi (String (lowerOf l) (accidentalText a ++ "/" ++ ds)) = ofZ (midi p).
Proof.
  intros N D. eexists. split.
  - apply (parsePitch_wellformed l true a ds N D).
  - apply noteToMidi_wellformed; assumption.
Qed.

Lemma parsePitch_noteToMidi_agree_witness :
  exists p, parsePitch "Bb3" = Some p /\ noteToMidi "bb/3" = ofZ (midi p).
Proof.
  apply (parsePitch_noteToMidi_agree LB Flat "3"); [discriminate | reflexivity].
Defined.

(** ** generateMeasures *)

Section GeneratorFacts.
Context {K : Type} `{KeyManager K}.
Variable random : nat -> sample.
Variable k0 : K.
Variables lowestMidi highestMidi : Z.
Variable validOctaves : list Z.

Lemma last_In {A} (l : list A) (d : A) : In (last l d) (d :: l).
Proof.
  induction l as [|x l IH]; [left; reflexivity|].
  destruct l as [|y l]; [right; left; reflexivity|].
  change (last (x :: y :: l) d) with (last (y :: l) d).
  destruct IH as [E|I]; [left; exact E | right; right; exact I].
Qed.

Lemma pickCumulative_In {T} (dflt : T) (r acc : Q) (items : list T) (weights : list Q) :
  items <> [] -> In (pickCumulative dflt r acc items weights) items.
Proof.
  revert acc weights; induction items as [|it items IH]; intros acc weights N;
    [congruence|].
  simpl. destruct weights as [|w weights].
  - apply last_In.
  - destruct (Qle_bool r (acc + w)); [now left|].
    destruct items as [|it' items']; [now left|].
    right. apply IH. discriminate.
Qed.

Lemma weightedChoice_In {T} (dflt : T) (items : list T) (weights : list Q)
  (s : gstate K) :
  items <> [] -> In (fst (weightedChoice random dflt items weights s)) items.
Proof. intros N. apply pickCumulative_In, N. Qed.

(** Drawing a random number leaves the key manager alone. *)
Lemma weightedChoice_km {T} (dflt : T) (items : list T) (weights : list Q)
  (s : gstate K) :
  km (snd (weightedChoice random dflt items weights s)) = km s.
Proof. reflexivity. Qed.

Lemma randomChoice_km {T} (dflt : T) (items : list T) (s : gstate K) :
  km (snd (randomChoice random dflt items s)) = km s.
Proof. reflexivity. Qed.

Lemma selectNoteM_evolves (letter : string) (s : gstate K) :
  evolves k0 (km s) ->
  evolves k0 (km (snd (selectNoteM letter s)))
  /\ fst (selectNoteM letter s) = fst (selectNote (km s) letter).
Proof.
  intros Ev. unfold selectNoteM.
  pose proof (evolves_step k0 (km s) letter Ev) as St.
  destruct (selectNote (km s) letter) as [sel k']. split; [exact St | reflexivity].
Qed.

Lemma scanLetters_spec (o : Z) (letters : list string) (s : gstate K) :
  evolves k0 (km s) ->
  evolves k0 (km (snd (scanLetters lowestMidi highestMidi o letters s)))
  /\ match fst (scanLetters lowestMidi highestMidi o letters s) with
     | Some sel =>
         inRange lowestMidi highestMidi (noteToMidi (noteKeyOf sel o)) = true
     | None =>
         forall l, In l letters ->
           exists k : K,
             evolves k0 k
             /\ inRange lowestMidi highestMidi
                  (noteToMidi (noteKeyOf (fst (selectNote k l)) o)) = false
     end.
Proof.
  revert s; induction letters as [|l letters IH]; intros s Ev.
  - split; [exact Ev | intros l []].
  - cbn [scanLetters]. unfold bind.
    destruct (selectNoteM_evolves l s Ev) as [Ev' Esel].
    destruct (selectNoteM l s) as [sel s1]. cbn [fst snd] in Ev', Esel.
    destruct (inRange lowestMidi highestMidi (noteToMidi (noteKeyOf sel o))) eqn:R.
    + split; [exact Ev' | exact R].
    + destruct (IH s1 Ev') as [Ev2 Hrest]. split; [exact Ev2|].
      destruct (fst (scanLetters lowestMidi highestMidi o letters s1)) as [sel'|].
      * exact Hrest.
      * intros l' [<-|In']; [|now apply Hrest].
        exists (km s). split; [exact Ev|]. rewrite <- Esel. exact R.
Qed.

Lemma scanOctaves_spec (octaves : list Z) (s : gstate K) :
  evolves k0 (km s) ->
  evolves k0 (km (snd (scanOctaves lowestMidi highestMidi octaves s)))
  /\ match fst (scanOctaves lowestMidi highestMidi octaves s) with
     | Some (o, sel) =>
         inRange lowestMidi highestMidi (noteToMidi (noteKeyOf sel o)) = true
     | None =>
         forall o l, In o octaves -> In l baseNotes ->
           exists k : K,
             evolves k0 k
             /\ inRange lowestMidi highestMidi
                  (noteToMidi (noteKeyOf (fst (selectNote k l)) o)) = false
     end.
Proof.
  revert s; induction octaves as [|o octaves IH]; intros s Ev.
  - split; [exact Ev | intros o l []].
  - cbn [scanOctaves]. unfold bind.
    destruct (scanLetters_spec o baseNotes s Ev) as [Ev1 L].
    destruct (scanLetters lowestMidi highestMidi o baseNotes s) as [[sel|] s1];
      cbn [fst snd] in Ev1, L.
    + split; [exact Ev1 | exact L].
    + destruct (IH s1 Ev1) as [Ev2 Hrest]. split; [exact Ev2|].
      destruct (fst (scanOctaves lowestMidi highestMidi octaves s1)) as [[o' sel']|].
      * exact Hrest.
      * intros o' l [<-|In'] Il; [now apply L | now apply Hrest].
Qed.

Lemma sampleNote_spec (budget : nat) :
  forall (o : Z) (sel : Selection) (s : gstate K)
         (gen : bool) (o' : Z) (sel' : Selection) (s' : gstate K),
    evolves k0 (km s) ->
    sampleNote random lowestMidi highestMidi validOctaves budget o sel s
    = (gen, o', sel', s') ->
    evolves k0 (km s')
    /\ (gen = true ->
        inRange lowestMidi highestMidi (noteToMidi (noteKeyOf sel' o')) = true).
Proof.
  induction budget as [|budget IH]; intros o sel s gen o' sel' s' Ev E.
  - cbn in E. inversion E; subst. split; [exact Ev | discriminate].
  - cbn [sampleNote] in E. unfold bind in E.
    pose proof (randomChoice_km 0 validOctaves s) as K1.
    destruct (randomChoice random 0 validOctaves s) as [o1 s1]. cbn [snd] in K1.
    pose proof (randomChoice_km "" baseNotes s1) as K2.
    destruct (randomChoice random "" baseNotes s1) as [letter s2]. cbn [snd] in K2.
    assert (Ev2 : evolves k0 (km s2)) by now rewrite K2, K1.
    destruct (selectNoteM_evolves letter s2 Ev2) as [Ev3 _].
    destruct (selectNoteM letter s2) as [sel1 s3]. cbn [snd] in Ev3.
    destruct (inRange lowestMidi highestMidi (noteToMidi (noteKeyOf sel1 o1))) eqn:R.
    + unfold ret in E. inversion E; subst. split; [exact Ev3 | intros _; exact R].
    + exact (IH o1 sel1 s3 gen o' sel' s' Ev3 E).
Qed.

Lemma pickPitch_justified (s s' : gstate K) (o : Z) (sel : Selection) :
  evolves k0 (km s) ->
  pickPitch random lowestMidi highestMidi validOctaves s = (o, sel, s') ->
  evolves k0 (km s')
  /\ justified k0 lowestMidi highestMidi validOctaves (noteKeyOf sel o).
Proof.
  intros Ev E. unfold pickPitch in E. unfold bind at 1 in E.
  destruct (selectNoteM_evolves (nth 0 baseNotes "") s Ev) as [Ev0 _].
  destruct (selectNoteM (nth 0 baseNotes "") s) as [sel0 s0]. cbn [snd] in Ev0.
  unfold bind at 1 in E.
  destruct (sampleNote random lowestMidi highestMidi validOctaves 50
              (nth 0 validOctaves 0) sel0 s0) as [[[gen o1] sel1] s1] eqn:Es.
  destruct (sampleNote_spec 50 _ _ _ _ _ _ _ Ev0 Es) as [Ev1 S].
  destruct gen.
  - unfold ret in E. inversion E; subst. split; [exact Ev1 | left; now apply S].
  - unfold bind at 1 in E.
    destruct (scanOctaves_spec validOctaves s1 Ev1) as [Ev2 Sc].
    destruct (scanOctaves lowestMidi highestMidi validOctaves s1) as [[[o2 sel2]|] s2];
      cbn [fst snd] in Ev2, Sc.
    + unfold ret in E. inversion E; subst. split; [exact Ev2 | left; exact Sc].
    + unfold bind, ret in E.
      destruct (selectNoteM_evolves (nth 0 baseNotes "") s2 Ev2) as [Ev3 Esel].
      destruct (selectNoteM (nth 0 baseNotes "") s2) as [sel3 s3].
      cbn [fst snd] in Ev3, Esel. inversion E; subst.
      split; [exact Ev3|].
      right. split; [exact Sc|].
      exists (km s2). split; [exact Ev2 | reflexivity].
Qed.

Lemma measureEighths_app (m : list NoteSpec.t) (e : NoteSpec.t) :
  measureEighths (m ++ [e])%list = measureEighths m + durationEighths (NoteSpec.duration e).
Proof.
  unfold measureEighths. induction m as [|x m IH]; simpl; [lia|].
  rewrite IH. lia.
Qed.

Lemma durationPool_eighths (d : Pool.entry) :
  In d durationPool ->
  durationEighths (Pool.duration d) = Pool.eighths d /\ 1 <= Pool.eighths d.
Proof.
  intros [<-|[<-|[<-|[]]]]; simpl; lia.
Qed.

(** The loop of one measure ends within [eighthsLeft] rounds, uses up
    exactly the units it was given, and only appends justified events. *)
Lemma fillMeasure_correct (noteDensity : number) (fuel : nat) :
  forall (eighthsLeft : Z) (measure : list NoteSpec.t) (s : gstate K),
    eighthsLeft <= Z.of_nat fuel ->
    evolves k0 (km s) ->
    Forall (eventJustified k0 lowestMidi highestMidi validOctaves) measure ->
    exists measure' s',
      fillMeasure random noteDensity lowestMidi highestMidi validOctaves
        fuel eighthsLeft measure s = Done (measure', s')
      /\ evolves k0 (km s')
      /\ measureEighths measure' = measureEighths measure + Z.max 0 eighthsLeft
      /\ Forall (eventJustified k0 lowestMidi highestMidi validOctaves) measure'.
Proof.
  induction fuel as [|fuel IH]; intros eighthsLeft measure s Hfuel Ev Hm.
  - cbn [fillMeasure].
    destruct (Z.ltb_spec 0 eighthsLeft) as [P|P]; [simpl in Hfuel; lia|].
    exists measure, s. repeat split; [assumption | lia | assumption].
  - cbn [fillMeasure].
    destruct (Z.ltb_spec 0 eighthsLeft) as [P|P].
    2:{ exists measure, s. repeat split; [assumption | lia | assumption]. }
    set (allowed := filter (fun d => Pool.eighths d <=? eighthsLeft) durationPool).
    assert (Hin : In {| Pool.duration := D8; Pool.beats := 1 # 2; Pool.eighths := 1 |}
                     allowed).
    { apply filter_In. split; [simpl; auto|]. simpl. apply Z.leb_le. lia. }
    destruct allowed as [|first rest] eqn:Ea; [destruct Hin|].
    set (weights := map (weightOf (densityRatio noteDensity)) (first :: rest)).
    pose proof (weightedChoice_In first (first :: rest) weights s ltac:(discriminate)) as Hc.
    pose proof (weightedChoice_km first (first :: rest) weights s) as Hk.
    destruct (weightedChoice random first (first :: rest) weights s) as [choice s1].
    cbn [fst snd] in Hc, Hk. rewrite <- Ea in Hc. apply filter_In in Hc as [Hpool Hle].
    apply Z.leb_le in Hle.
    destruct (durationPool_eighths choice Hpool) as [Hd H1].
    assert (Ev1 : evolves k0 (km s1)) by now rewrite Hk.
    destruct (pickPitch random lowestMidi highestMidi validOctaves s1)
      as [[octave selection] s2] eqn:Ep.
    destruct (pickPitch_justified s1 s2 octave selection Ev1 Ep) as [Ev2 Hp].
    assert (Ev3 : evolves k0 (km (snd (Math_random random s2)))) by exact Ev2.
    destruct (Math_random random s2) as [u s3]. cbn [snd] in Ev3.
    match goal with
    | |- context [fillMeasure _ _ _ _ _ _ _ (measure ++ [?e])%list _] => set (event := e)
    end.
    destruct (IH (eighthsLeft - Pool.eighths choice) (measure ++ [event])%list s3)
      as (m' & s' & E & Ev' & Hsum & Hall).
    + lia.
    + exact Ev3.
    + apply Forall_app. split; [assumption|]. constructor; [exact Hp | constructor].
    + exists m', s'. split; [exact E|]. split; [exact Ev'|]. split; [|exact Hall].
      rewrite Hsum, measureEighths_app. subst event. simpl NoteSpec.duration.
      rewrite Hd. lia.
Qed.

Lemma generateMeasure_correct (noteDensity : number) (eighths : whole) (s : gstate K) :
  eighths <> WholePosInf ->
  evolves k0 (km s) ->
  exists m s',
    generateMeasure random noteDensity lowestMidi highestMidi validOctaves eighths s
    = Done (m, s')
    /\ evolves k0 (km s')
    /\ measureOk k0 lowestMidi highestMidi validOctaves (unitsOf eighths) m.
Proof.
  intros Hfin Ev. destruct eighths as [z| | |]; try congruence.
  - destruct (fillMeasure_correct noteDensity (Z.to_nat z) z [] s)
      as (m & s' & E & Ev' & Hsum & Hall); [lia | exact Ev | constructor |].
    exists m, s'. split; [exact E|]. split; [exact Ev'|]. split; [|exact Hall].
    rewrite Hsum. reflexivity.
  - exists [], s. repeat split; [exact Ev | constructor].
  - exists [], s. repeat split; [exact Ev | constructor].
Qed.

Lemma measuresLoop_correct (noteDensity : number) (eighths : whole) (count : nat) :
  eighths <> WholePosInf ->
  forall (measures : list (list NoteSpec.t)) (s : gstate K),
    evolves k0 (km s) ->
    Forall (measureOk k0 lowestMidi highestMidi validOctaves (unitsOf eighths)) measures ->
    exists result,
      measuresLoop random noteDensity lowestMidi highestMidi validOctaves eighths
        count measures s = Done result
      /\ length result = (length measures + count)%nat
      /\ Forall (measureOk k0 lowestMidi highestMidi validOctaves (unitsOf eighths))
           result.
Proof.
  intros Hfin. induction count as [|count IH]; intros measures s Ev Hall.
  - exists measures. repeat split; [simpl; lia | assumption].
  - cbn [measuresLoop].
    destruct (generateMeasure_correct noteDensity eighths s Hfin Ev)
      as (m & s' & E & Ev' & Hm).
    rewrite E.
    destruct (IH (measures ++ [m])%list s' Ev') as (result & Er & Hlen & Hres).
    + apply Forall_app. split; [assumption | constructor; [exact Hm | constructor]].
    + exists result. split; [exact Er|]. split; [|exact Hres].
      rewrite Hlen, length_app. simpl. lia.
Qed.

End GeneratorFacts.

Section GenerateMeasures.
Context {K : Type} `{KeyManager K}.
Variable random : nat -> sample.

(** [generateMeasures] returns whenever the key is known to the manager and
    neither the bar count nor the unit count is infinite; it returns as
    many measures as there are rounds, each filled exactly and made of
    justified events. *)
Lemma generateMeasures_correct (key : string) (keyManager : K) (bars : number)
  (timeSig : string) (noteDensity : number) (lowestPitch highestPitch : option string) :
  newKeyManager key = Some keyManager ->
  bars <> PosInf ->
  eighthsPerMeasure (parseTimeSignature timeSig) <> WholePosInf ->
  let lowestMidi := resolveMidi lowestPitch 48 in
  let highestMidi := resolveMidi highestPitch 84 in
  exists measures rounds,
    generateMeasures random key bars timeSig noteDensity lowestPitch highestPitch
    = Done measures
    /\ barRounds bars = Some rounds
    /\ length measures = rounds
    /\ Forall (measureOk keyManager lowestMidi highestMidi
                 (validOctavesFor lowestMidi highestMidi)
                 (unitsOf (eighthsPerMeasure (parseTimeSignature timeSig))))
              measures.
Proof.
  intros Hkey Hbars Hfin lowestMidi highestMidi.
  unfold generateMeasures. rewrite Hkey.
  assert (exists rounds, barRounds bars = Some rounds) as [rounds Hr].
  { destruct bars; simpl; eauto. congruence. }
  rewrite Hr.
  destruct (measuresLoop_correct random keyManager lowestMidi highestMidi
              (validOctavesFor lowestMidi highestMidi) noteDensity
              (eighthsPerMeasure (parseTimeSignature timeSig)) rounds Hfin []
              {| km := keyManager; draws := 0 |})
    as (result & E & Hlen & Hall); [apply evolves_refl | constructor |].
  exists result, rounds. repeat split; assumption.
Qed.

(** C1: for every key the manager knows, every finite bar count, every
    supported time signature, every density and pitch range, and whatever
    the random draws, [generateMeasures] returns, and the eighth-units
    (q = 2, 8 = 1, h = 4) of the events of every measure add up to exactly
    the [eighthsPerMeasure] that [parseTimeSignature] computes. *)
Theorem generateMeasures_fills_measures (key : string) (keyManager : K) (bars : number)
  (timeSig : string) (noteDensity : number) (lowestPitch highestPitch : option string) :
  In timeSig timeSignatureOptions ->
  newKeyManager key = Some keyManager ->
  bars <> PosInf ->
  exists measures rounds,
    generateMeasures random key bars timeSig noteDensity lowestPitch highestPitch
    = Done measures
    /\ barRounds bars = Some rounds
    /\ length measures = rounds
    /\ Forall (fun m => eighthsPerMeasure (parseTimeSignature timeSig)
                        = Whole (measureEighths m)) measures.
Proof.
  intros Hsig Hkey Hbars.
  assert (Hu : exists z, eighthsPerMeasure (parseTimeSignature timeSig) = Whole z /\ 0 <= z).
  { simpl in Hsig.
    repeat (destruct Hsig as [<-|Hsig]; [eexists; split; [vm_compute; reflexivity | lia] |]).
    destruct Hsig. }
  destruct Hu as (z & Ez & Hz).
  destruct (generateMeasures_correct key keyManager bars timeSig noteDensity
              lowestPitch highestPitch Hkey Hbars)
    as (measures & rounds & E & Hr & Hlen & Hall).
  { rewrite Ez. discriminate. }
  exists measures, rounds. repeat split; try assumption.
  eapply Forall_impl; [|exact Hall].
  intros m [Hsum _]. rewrite Ez in *. simpl in Hsum. rewrite Hsum. f_equal. lia.
Qed.

Lemma resolveMidi_parsed (pitch : string) (info : PitchInfo) (dflt : Z) :
  parsePitch pitch = Some info -> resolveMidi (Some pitch) dflt = midi info.
Proof.
  intros E. unfold resolveMidi. destruct pitch as [|c pitch]; [discriminate|].
  simpl isEmpty. cbv iota. rewrite E. reflexivity.
Qed.

(** A key manager whose [selectNote] never changes it stays what it was. *)
Lemma evolves_pure (k0 k : K) :
  (forall k' letter, snd (selectNote k' letter) = k') -> evolves k0 k -> k = k0.
Proof.
  intros Pure Ev. induction Ev as [|k letter Ev IH]; [reflexivity|].
  rewrite Pure. exact IH.
Qed.

(** C2: with a parseable lowest and highest pitch, [generateMeasures]
    returns, and the height [noteToMidi] gives to every event (rests
    included) lies within the two parsed bounds, except when every
    combination of a candidate octave and a diatonic letter was out of range
    when the key manager of the active key was asked for it; the event is
    then the first letter at the middle candidate octave. *)
Theorem generateMeasures_within_range (key : string) (keyManager : K) (bars : number)
  (timeSig : string) (noteDensity : number) (lowestPitch highestPitch : string)
  (low high : PitchInfo) :
  parsePitch lowestPitch = Some low ->
  parsePitch highestPitch = Some high ->
  newKeyManager key = Some keyManager ->
  bars <> PosInf ->
  eighthsPerMeasure (parseTimeSignature timeSig) <> WholePosInf ->
  exists measures,
    generateMeasures random key bars timeSig noteDensity
      (Some lowestPitch) (Some highestPitch) = Done measures
    /\ forall m e, In m measures -> In e m ->
         justified keyManager (midi low) (midi high)
           (validOctavesFor (midi low) (midi high)) (NoteSpec.key e).
Proof.
  intros Elow Ehigh Hkey Hbars Hfin.
  destruct (generateMeasures_correct key keyManager bars timeSig noteDensity
              (Some lowestPitch) (Some highestPitch) Hkey Hbars Hfin)
    as (measures & rounds & E & _ & _ & Hall).
  rewrite (resolveMidi_parsed _ _ _ Elow), (resolveMidi_parsed _ _ _ Ehigh) in Hall.
  exists measures. split; [exact E|].
  intros m e Hm He. rewrite Forall_forall in Hall.
  destruct (Hall m Hm) as [_ Hev]. rewrite Forall_forall in Hev.
  exact (Hev e He).
Qed.

(** For a key manager that [selectNote] never changes, the exception is
    exactly that no combination is in range under the active key. *)
Lemma justified_pure (keyManager : K) (lowestMidi highestMidi : Z)
  (validOctaves : list Z) (noteKey : string) :
  (forall k letter, snd (selectNote k letter) = k) ->
  justified keyManager lowestMidi highestMidi validOctaves noteKey ->
  inRange lowestMidi highestMidi (noteToMidi noteKey) = true
  \/ ((forall o l, In o validOctaves -> In l baseNotes ->
         inRange lowestMidi highestMidi
           (noteToMidi (noteKeyOf (fst (selectNote keyManager l)) o)) = false)
      /\ noteKey = noteKeyOf (fst (selectNote keyManager "c")) (middleOctave validOctaves)).
Proof.
  intros Pure [R|[All (k & Ev & E)]]; [now left | right].
  split.
  - intros o l Ho Hl. destruct (All o l Ho Hl) as (k' & Ev' & R).
    now rewrite (evolves_pure keyManager k' Pure Ev') in R.
  - now rewrite (evolves_pure keyManager k Pure Ev) in E.
Qed.

End GenerateMeasures.

Lemma generateMeasures_fills_measures_witness :
  exists measures rounds,
    generateMeasures cyclicRandom "C" (ofZ 2) "7/8" (ofZ 70) (Some "C4") (Some "G5")
    = Done measures
    /\ barRounds (ofZ 2) = Some rounds
    /\ length measures = rounds
    /\ Forall (fun m => eighthsPerMeasure (parseTimeSignature "7/8")
                        = Whole (measureEighths m)) measures.
Proof.
  apply (generateMeasures_fills_measures cyclicRandom "C" tt).
  - simpl. tauto.
  - reflexivity.
  - discriminate.
Defined.

Lemma generateMeasures_within_range_witness :
  exists measures,
    generateMeasures cyclicRandom "C" (ofZ 2) "3/4" (ofZ 40) (Some "E4") (Some "A4")
    = Done measures
    /\ forall m e, In m measures -> In e m ->
         justified tt 64 69 (validOctavesFor 64 69) (NoteSpec.key e).
Proof.
  apply (generateMeasures_within_range cyclicRandom "C" tt (ofZ 2) "3/4" (ofZ 40)
           "E4" "A4" {| midi := 64; octave := 4; note := "e" |}
           {| midi := 69; octave := 4; note := "a" |}).
  - reflexivity.
  - reflexivity.
  - reflexivity.
  - discriminate.
  - vm_compute. discriminate.
Defined.

(** ** handleDownload *)

Lemma squeeze_cons_other (c : ascii) (s : string) :
  isUnderscore c = false -> squeeze (String c s) = String c (squeeze s).
Proof. intros E. destruct s as [|c' s]; simpl; [reflexivity|]. now rewrite E. Qed.

Lemma keyChar_not_underscore (c : ascii) : isKeyChar c = true -> isUnderscore c = false.
Proof. unfold isKeyChar, isUnderscore. intros E. code_arith. Qed.

Lemma replaceRuns_squeeze (s : string) :
  replaceRuns false s = squeeze (replaceEach s)
  /\ String "_" (replaceRuns true s) = squeeze (String "_" (replaceEach s)).
Proof.
  induction s as [|c s [IHf IHt]]; [split; reflexivity|].
  cbn [replaceRuns replaceEach].
  destruct (isKeyChar c) eqn:Kc.
  - pose proof (keyChar_not_underscore c Kc) as U.
    rewrite (squeeze_cons_other c _ U), IHf. split; [reflexivity|].
    change (squeeze (String "_" (String c (replaceEach s))))
      with (if isUnderscore "_" && isUnderscore c
            then squeeze (String c (replaceEach s))
            else String "_" (squeeze (String c (replaceEach s)))).
    rewrite U, andb_false_r, (squeeze_cons_other c _ U). reflexivity.
  - rewrite IHt. split; reflexivity.
Qed.

Lemma replaceRuns_nonempty (s : string) (b : bool) :
  s <> "" -> b = false -> replaceRuns b s <> "".
Proof.
  intros N ->. destruct s as [|c s]; [congruence|]. simpl.
  destruct (isKeyChar c); discriminate.
Qed.

(** C9, as the specification words it, fails on a key with two characters
    in a row outside the set: the code writes one underscore for the run. *)
Lemma handleDownload_filename_not_per_character :
  filename (handleDownload (scoreIn "C (major)"))
  <> "score-" ++ replaceEach "C (major)" ++ "-" ++ GeneratedScore.id (scoreIn "C (major)")
     ++ ".json".
Proof. vm_compute. discriminate. Qed.

(** C9 (amended): the export filename is "score-" + sanitized key + "-" +
    id + ".json", where the sanitized key is the key with every character
    outside a-z, A-Z, 0-9 and the hyphen replaced by an underscore and every
    run of underscores so obtained shortened to one, or "untitled" when the
    key is empty; for the keys the application offers this is the
    replacement character by character. *)
Theorem handleDownload_filename (item : GeneratedScore.t) :
  filename (handleDownload item)
  = "score-"
    ++ (if isEmpty (GeneratedScore.key item) then "untitled"
        else squeeze (replaceEach (GeneratedScore.key item)))
    ++ "-" ++ GeneratedScore.id item ++ ".json"
  /\ (In (GeneratedScore.key item) keyOptions ->
      filename (handleDownload item)
      = "score-" ++ replaceEach (GeneratedScore.key item)
        ++ "-" ++ GeneratedScore.id item ++ ".json").
Proof.
  assert (G : filename (handleDownload item)
              = "score-"
                ++ (if isEmpty (GeneratedScore.key item) then "untitled"
                    else squeeze (replaceEach (GeneratedScore.key item)))
                ++ "-" ++ GeneratedScore.id item ++ ".json").
  { unfold handleDownload. cbn [filename].
    destruct (GeneratedScore.key item) as [|c k] eqn:Ek; [reflexivity|].
    rewrite <- (proj1 (replaceRuns_squeeze (String c k))).
    pose proof (replaceRuns_nonempty (String c k) false ltac:(discriminate) eq_refl) as N.
    apply isEmpty_false in N. rewrite N. reflexivity. }
  split; [exact G|].
  intros Hin. rewrite G. cbn [In keyOptions] in Hin.
  repeat (destruct Hin as [<-|Hin]; [reflexivity|]). destruct Hin.
Qed.

Lemma handleDownload_filename_witness :
  filename (handleDownload (scoreIn "F#m")) = "score-F_m-7d9f0c1e.json".
Proof.
  apply (proj2 (handleDownload_filename (scoreIn "F#m"))).
  simpl. tauto.
Defined.

(** ** handleSave *)

Lemma hasId_In (i : string) (items : list GeneratedScore.t) :
  hasId i items = true <-> exists item, In item items /\ GeneratedScore.id item = i.
Proof.
  unfold hasId. rewrite existsb_exists. split; intros (item & Hin & E); exists item;
    (split; [assumption|]); now apply String.eqb_eq.
Qed.

Lemma firstn_cons_firstn {A} (n : nat) (x : A) (l : list A) :
  firstn (S n) (x :: firstn (S n) l) = firstn (S n) (x :: l).
Proof.
  rewrite !firstn_cons. f_equal. rewrite firstn_firstn. f_equal. lia.
Qed.

Lemma firstn_app_firstn {A} (n : nat) (a b : list A) :
  firstn n (a ++ firstn n b) = firstn n (a ++ b).
Proof.
  rewrite !firstn_app, firstn_firstn. do 2 f_equal. lia.
Qed.

(** C6: saving a score whose identifier is already in the library leaves
    the library, in memory and in storage, as it was, so a second save of
    the same score changes nothing; saving a score with a fresh identifier
    makes the library the new score followed by the old library, cut after
    30 entries, the entries cut being those at the old end. *)
Theorem handleSave_library (st : App.State) (score : GeneratedScore.t) :
  App.score st = Some score ->
  (hasId (GeneratedScore.id score) (App.collection st) = true ->
     App.collection (handleSave st) = App.collection st
     /\ App.stored (handleSave st) = App.stored st)
  /\ (hasId (GeneratedScore.id score) (App.collection st) = false ->
        App.collection (handleSave st) = firstn 30 (score :: App.collection st)
        /\ App.stored (handleSave st)
           = Some (persistCollection (firstn 30 (score :: App.collection st)))
        /\ (score :: App.collection st
            = App.collection (handleSave st) ++ skipn 30 (score :: App.collection st))%list)
  /\ App.collection (handleSave (handleSave st)) = App.collection (handleSave st)
  /\ App.stored (handleSave (handleSave st)) = App.stored (handleSave st).
Proof.
  intros Hs.
  assert (Dup : hasId (GeneratedScore.id score) (App.collection st) = true ->
                handleSave st = alert "alerts.duplicate" st).
  { intros D. unfold handleSave. now rewrite Hs, D. }
  assert (Fresh : hasId (GeneratedScore.id score) (App.collection st) = false ->
                  handleSave st = setAndPersist (firstn 30 (score :: App.collection st)) st).
  { intros D. unfold handleSave. now rewrite Hs, D. }
  split; [|split; [|]].
  - intros D. rewrite (Dup D). split; reflexivity.
  - intros D. rewrite (Fresh D). cbn [App.collection App.stored setAndPersist].
    repeat split. symmetry. apply firstn_skipn.
  - destruct (hasId (GeneratedScore.id score) (App.collection st)) eqn:D.
    + rewrite (Dup eq_refl).
      assert (E : handleSave (alert "alerts.duplicate" st)
                  = alert "alerts.duplicate" (alert "alerts.duplicate" st)).
      { unfold handleSave. cbn [App.score App.collection alert]. now rewrite Hs, D. }
      rewrite E. split; reflexivity.
    + rewrite (Fresh eq_refl).
      set (updated := firstn 30 (score :: App.collection st)).
      assert (E : handleSave (setAndPersist updated st)
                  = alert "alerts.duplicate" (setAndPersist updated st)).
      { unfold handleSave. cbn [App.score App.collection setAndPersist]. rewrite Hs.
        assert (H : hasId (GeneratedScore.id score) updated = true).
        { apply hasId_In. exists score. split; [|reflexivity].
          unfold updated. rewrite firstn_cons. now left. }
        now rewrite H. }
      rewrite E. split; reflexivity.
Qed.

Lemma handleSave_library_witness :
  App.collection (handleSave (initialState (Some (scoreIn "G")))) = [scoreIn "G"]
  /\ App.collection (handleSave (handleSave (initialState (Some (scoreIn "G")))))
     = App.collection (handleSave (initialState (Some (scoreIn "G")))).
Proof.
  pose proof (handleSave_library (initialState (Some (scoreIn "G"))) (scoreIn "G") eq_refl)
    as (_ & Fresh & Twice & _).
  split; [|exact Twice].
  apply Fresh. reflexivity.
Defined.

(** Saving any number of scores with pairwise different identifiers, none
    of them in the library yet, leaves the 30 saved last, newest first. *)
Lemma saveEach_keeps_latest (scores : list GeneratedScore.t) :
  forall st,
    NoDup (map GeneratedScore.id (scores ++ App.collection st)) ->
    (length (App.collection st) <= 30)%nat ->
    App.collection (saveEach scores st)
    = firstn 30 (rev scores ++ App.collection st).
Proof.
  induction scores as [|next scores IH]; intros st ND L.
  - cbn [saveEach fold_left rev app]. symmetry. apply firstn_all2. exact L.
  - cbn [saveEach fold_left]. fold (saveEach scores (handleSave (setScore next st))).
    cbn [app map] in ND. pose proof ND as ND'. apply NoDup_cons_iff in ND' as [Hnot _].
    assert (Hfresh : hasId (GeneratedScore.id next) (App.collection st) = false).
    { apply not_true_is_false. intros D. apply hasId_In in D as (item & Hin & E).
      apply Hnot. rewrite <- E. apply in_map. apply in_or_app. now right. }
    assert (E : handleSave (setScore next st)
                = setAndPersist (firstn 30 (next :: App.collection st)) (setScore next st)).
    { unfold handleSave. cbn [App.score App.collection setScore]. now rewrite Hfresh. }
    rewrite E, IH.
    + cbn [App.collection setAndPersist rev].
      rewrite firstn_app_firstn, <- app_assoc. reflexivity.
    + cbn [App.collection setAndPersist].
      rewrite map_app in ND.
      apply (Permutation_NoDup
               (Permutation_middle _ _ _)) in ND.
      rewrite <- (firstn_skipn 29 (App.collection st)), map_app in ND.
      rewrite firstn_cons, map_app. cbn [map].
      change (GeneratedScore.id next :: map GeneratedScore.id (firstn 29 (App.collection st))
              ++ map GeneratedScore.id (skipn 29 (App.collection st)))%list
        with ((GeneratedScore.id next :: map GeneratedScore.id (firstn 29 (App.collection st)))
              ++ map GeneratedScore.id (skipn 29 (App.collection st)))%list in ND.
      rewrite app_assoc in ND. apply NoDup_app_remove_r in ND. exact ND.
    + cbn [App.collection setAndPersist]. apply firstn_le_length.
Qed.

(** ** handleFileSelected and normalizeImportedScore *)






Lemma normalizeNote_complete (e : json) :
  durationOf (prop "duration" e) <> None ->
  (truthy (prop "isRest" e) = true \/ nonEmptyString (prop "key" e) <> None) ->
  normalizeNote e <> None.
Proof.
  intros Hd Hk. unfold normalizeNote.
  assert (Ho : isObject e = true).
  { destruct e; try reflexivity; simpl in Hd; congruence. }
  rewrite Ho. cbn [negb].
  destruct (durationOf (prop "duration" e)); [|congruence].
  destruct (truthy (prop "isRest" e)); cbn [negb andb]; [discriminate|].
  destruct Hk as [Hk|Hk]; [discriminate|].
  destruct (nonEmptyString (prop "key" e)); [discriminate | congruence].
Qed.

Lemma normalizeNotes_complete (notes : list json) :
  (forall e, In e notes -> normalizeNote e <> None) ->
  normalizeNotes notes <> None.
Proof.
  induction notes as [|e notes IH]; intros Hall; [discriminate|].
  cbn [normalizeNotes].
  destruct (normalizeNote e) eqn:Ee; [|exfalso; apply (Hall e); [now left | exact Ee]].
  destruct (normalizeNotes notes) eqn:En; [discriminate|].
  exfalso. apply IH; [|reflexivity]. intros e' He'. apply Hall. now right.
Qed.

Lemma normalizeMeasures_complete (measuresRaw : list json) :
  (forall m, In m measuresRaw ->
     exists notes, m = JArr notes /\ forall e, In e notes -> normalizeNote e <> None) ->
  normalizeMeasures measuresRaw <> None.
Proof.
  induction measuresRaw as [|m rest IH]; intros Hall; [discriminate|].
  destruct (Hall m (or_introl eq_refl)) as (notes & -> & Hn).
  cbn [normalizeMeasures].
  destruct (normalizeNotes notes) eqn:En;
    [|exfalso; now apply (normalizeNotes_complete notes Hn)].
  destruct (normalizeMeasures rest) eqn:Er; [discriminate|].
  exfalso. apply IH; [|reflexivity]. intros m' Hm'. apply Hall. now right.
Qed.

(** The grounds listed in [failsValidation] are all there are: a snapshot
    that has none of them is accepted, unless a conversion to a number
    throws on the way. *)
Lemma validation_complete (uuid : string) (now : Z) (raw : json) :
  ~ failsValidation raw ->
  (exists imported, normalizeImportedScore uuid now raw = Done (Some imported))
  \/ normalizeImportedScore uuid now raw = Throws.
Proof.
  intros NF. unfold failsValidation in NF.
  assert (Hkey : nonEmptyString (prop "key" raw) <> None) by tauto.
  assert (Hsig : nonEmptyString (prop "timeSig" raw) <> None) by tauto.
  assert (Ho : isObject raw = true).
  { destruct raw; try reflexivity; simpl in Hkey; congruence. }
  unfold normalizeImportedScore. rewrite Ho. cbn [negb].
  destruct (nonEmptyString (prop "key" raw)) as [key|]; [|congruence].
  destruct (nonEmptyString (prop "timeSig" raw)) as [timeSig|]; [|congruence].
  destruct (ToNumber (prop "tempo" raw)) as [x| |] eqn:Et; cbn [andThen].
  2:{ now right. }
  2:{ exfalso. apply NF. right. right. left. intros y Ey. discriminate. }
  destruct (Number_isFinite x) eqn:Fx; cbn [negb].
  2:{ exfalso. apply NF. right. right. left. intros y Ey.
      inversion Ey; subst. exact Fx. }
  destruct (finiteOr (prop "noteDensity" raw) (ofZ 70)) as [d| |] eqn:Ed; cbn [andThen].
  2:{ now right. }
  2:{ unfold finiteOr in Ed. destruct (ToNumber (prop "noteDensity" raw)) eqn:En;
        try discriminate. unfold ToNumber in En.
      destruct (prop "noteDensity" raw) as [j|]; [|discriminate].
      destruct (throwsToString j); discriminate. }
  destruct (prop "measures" raw) as [[| | | |measuresRaw|]|] eqn:Em;
    try (exfalso; apply NF; right; right; right; left; intros ms Hms; discriminate).
  assert (Hms : normalizeMeasures measuresRaw <> None).
  { apply normalizeMeasures_complete. intros m Hm.
    destruct m as [| | | |notes|];
      try (exfalso; apply NF; right; right; right; left; intros ms Hms;
           inversion Hms; subst ms; eexists; split; [exact Hm | reflexivity]).
    exists notes. split; [reflexivity|]. intros e He.
    assert (Hev : In e (snapshotEvents raw)).
    { unfold snapshotEvents. rewrite Em. apply in_flat_map.
      exists (JArr notes). split; assumption. }
    apply normalizeNote_complete.
    - intros Hd. apply NF. right. right. right. right. left. now exists e.
    - destruct (truthy (prop "isRest" e)) eqn:Hr; [now left | right].
      intros Hk. apply NF. right. right. right. right. right. now exists e. }
  destruct (normalizeMeasures measuresRaw) as [ms|]; [|congruence].
  destruct (finiteOr (prop "bars" raw) _) as [b| |] eqn:Eb; cbn [andThen].
  2:{ now right. }
  2:{ unfold finiteOr in Eb. destruct (ToNumber (prop "bars" raw)) eqn:En;
        try discriminate. unfold ToNumber in En.
      destruct (prop "bars" raw) as [j|]; [|discriminate].
      destruct (throwsToString j); discriminate. }
  destruct (if truthy (prop "createdAt" raw)
            then finiteOr (prop "createdAt" raw) (ofZ now) else Done (ofZ now))
    as [c| |] eqn:Ec; cbn [andThen].
  - left. eexists. reflexivity.
  - now right.
  - destruct (truthy (prop "createdAt" raw)); [|discriminate].
    unfold finiteOr in Ec. destruct (ToNumber (prop "createdAt" raw)) eqn:En;
      try discriminate. unfold ToNumber in En.
    destruct (prop "createdAt" raw) as [j|]; [|discriminate].
    destruct (throwsToString j); discriminate.
Qed.





(** ** Export and import *)

Lemma normalizeNote_noteToJson (n : NoteSpec.t) :
  NoteSpec.isRest n = Some true \/ NoteSpec.key n <> "" ->
  normalizeNote (noteToJson n) = Some (settled n).
Proof.
  destruct n as [k a d r]. cbn [NoteSpec.isRest NoteSpec.key]. intros Hk.
  destruct r as [[|]|]; destruct a; destruct d; try reflexivity;
    (destruct k as [|c k]; [destruct Hk; congruence | reflexivity]).
Qed.

Lemma normalizeNotes_map (m : list NoteSpec.t) :
  (forall e, In e m -> NoteSpec.isRest e = Some true \/ NoteSpec.key e <> "") ->
  normalizeNotes (map noteToJson m) = Some (map settled m).
Proof.
  induction m as [|n m IH]; intros Hm; [reflexivity|].
  cbn [map normalizeNotes].
  rewrite (normalizeNote_noteToJson n) by (apply Hm; now left).
  rewrite IH by (intros e He; apply Hm; now right). reflexivity.
Qed.

Lemma normalizeMeasures_map (ms : list (list NoteSpec.t)) :
  (forall m e, In m ms -> In e m -> NoteSpec.isRest e = Some true \/ NoteSpec.key e <> "") ->
  normalizeMeasures (map (fun m => JArr (map noteToJson m)) ms)
  = Some (map (map settled) ms).
Proof.
  induction ms as [|m ms IH]; intros Hms; [reflexivity|].
  cbn [map normalizeMeasures].
  rewrite (normalizeNotes_map m) by (intros e He; apply (Hms m e); [now left | exact He]).
  rewrite IH by (intros m' e Hm He; apply (Hms m' e); [now right | exact He]).
  reflexivity.
Qed.

(** The members of the exported snapshot. *)
Lemma scoreToJson_members (s : GeneratedScore.t) :
  isObject (scoreToJson s) = true
  /\ prop "id" (scoreToJson s) = Some (JStr (GeneratedScore.id s))
  /\ prop "key" (scoreToJson s) = Some (JStr (GeneratedScore.key s))
  /\ prop "bars" (scoreToJson s) = Some (numberToJson (GeneratedScore.bars s))
  /\ prop "tempo" (scoreToJson s) = Some (numberToJson (GeneratedScore.tempo s))
  /\ prop "timeSig" (scoreToJson s) = Some (JStr (GeneratedScore.timeSig s))
  /\ prop "noteDensity" (scoreToJson s) = Some (numberToJson (GeneratedScore.noteDensity s))
  /\ prop "lowestPitch" (scoreToJson s) = option_map JStr (GeneratedScore.lowestPitch s)
  /\ prop "highestPitch" (scoreToJson s) = option_map JStr (GeneratedScore.highestPitch s)
  /\ prop "measures" (scoreToJson s)
     = Some (JArr (map (fun m => JArr (map noteToJson m)) (GeneratedScore.measures s)))
  /\ prop "createdAt" (scoreToJson s) = Some (numberToJson (GeneratedScore.createdAt s)).
Proof.
  destruct s as [i k b t ts ms c d hp lp]. unfold scoreToJson.
  cbn [GeneratedScore.id GeneratedScore.key GeneratedScore.bars GeneratedScore.tempo
       GeneratedScore.timeSig GeneratedScore.measures GeneratedScore.createdAt
       GeneratedScore.noteDensity GeneratedScore.highestPitch GeneratedScore.lowestPitch].
  destruct hp, lp; repeat split; reflexivity.
Qed.

Lemma ToNumber_numberToJson (x : number) :
  ToNumber (Some (numberToJson x)) = Done (finiteOrZero x).
Proof. destruct x; reflexivity. Qed.

Lemma finiteOr_numberToJson (x dflt : number) :
  finiteOr (Some (numberToJson x)) dflt = Done (finiteOrZero x).
Proof. unfold finiteOr. rewrite ToNumber_numberToJson. destruct x; reflexivity. Qed.

Lemma nonEmptyString_JStr (s : string) :
  s <> "" -> nonEmptyString (Some (JStr s)) = Some s.
Proof. intros N. simpl. apply isEmpty_false in N. now rewrite N. Qed.

(** C5, as the specification words it, fails on a score stamped 0: the
    exported snapshot carries the member [createdAt], yet the import
    replaces the stamp with the current time. *)
Lemma roundtrip_regenerates_epoch_timestamp :
  prop "createdAt" (scoreToJson epochScore) = Some (JNum 0)
  /\ exists s',
       normalizeImportedScore "fresh" 1700000000000 (scoreToJson epochScore)
       = Done (Some s')
       /\ GeneratedScore.createdAt s' <> GeneratedScore.createdAt epochScore.
Proof.
  split; [reflexivity|]. eexists. split; [vm_compute; reflexivity|].
  vm_compute. discriminate.
Qed.

(** C5 (amended): for every score whose key and timeSig are not empty and
    whose events other than rests have a non-empty key, importing the
    exported snapshot is accepted and yields a score with the same key and
    timeSig, the same measures (keys, durations, accidentals and rest flags,
    with an absent accidental read as null and an absent rest flag as
    false), the same tempo, bars and noteDensity when these are finite (0
    otherwise), the same lowestPitch and highestPitch when present (C4 and
    G5 otherwise), the same id unless it is empty, and the same createdAt
    unless it is zero or not finite; the id and the createdAt are
    regenerated in those cases only. *)
Theorem export_import_roundtrip (s : GeneratedScore.t) (uuid : string) (now : Z) :
  importable s ->
  exists s',
    normalizeImportedScore uuid now (scoreToJson s) = Done (Some s')
    /\ GeneratedScore.key s' = GeneratedScore.key s
    /\ GeneratedScore.timeSig s' = GeneratedScore.timeSig s
    /\ GeneratedScore.tempo s' = finiteOrZero (GeneratedScore.tempo s)
    /\ GeneratedScore.bars s' = finiteOrZero (GeneratedScore.bars s)
    /\ GeneratedScore.noteDensity s' = finiteOrZero (GeneratedScore.noteDensity s)
    /\ GeneratedScore.measures s' = map (map settled) (GeneratedScore.measures s)
    /\ GeneratedScore.lowestPitch s' = Some (orElse (GeneratedScore.lowestPitch s) "C4")
    /\ GeneratedScore.highestPitch s' = Some (orElse (GeneratedScore.highestPitch s) "G5")
    /\ GeneratedScore.id s'
       = (if isEmpty (GeneratedScore.id s) then uuid else GeneratedScore.id s)
    /\ GeneratedScore.createdAt s'
       = match GeneratedScore.createdAt s with
         | Num q => if Qeq_bool q 0 then ofZ now else Num q
         | _ => ofZ now
         end.
Proof.
  intros (Hk & Ht & Hm).
  destruct (scoreToJson_members s)
    as (Ho & Pid & Pkey & Pbars & Ptempo & Psig & Pden & Plow & Phigh & Pms & Pca).
  unfold normalizeImportedScore.
  rewrite Ho, Pid, Pkey, Pbars, Ptempo, Psig, Pden, Plow, Phigh, Pms, Pca.
  cbn [negb].
  rewrite (nonEmptyString_JStr _ Hk), (nonEmptyString_JStr _ Ht).
  rewrite ToNumber_numberToJson. cbn [andThen].
  assert (Ft : Number_isFinite (finiteOrZero (GeneratedScore.tempo s)) = true)
    by (destruct (GeneratedScore.tempo s); reflexivity).
  rewrite Ft. cbn [negb].
  assert (Hc : (if truthy (Some (numberToJson (GeneratedScore.createdAt s)))
                then finiteOr (Some (numberToJson (GeneratedScore.createdAt s))) (ofZ now)
                else Done (ofZ now))
               = Done match GeneratedScore.createdAt s with
                      | Num q => if Qeq_bool q 0 then ofZ now else Num q
                      | _ => ofZ now
                      end).
  { destruct (GeneratedScore.createdAt s) as [q| | |]; try reflexivity.
    cbn [numberToJson truthy]. destruct (Qeq_bool q 0); reflexivity. }
  rewrite Hc, !finiteOr_numberToJson. cbn [andThen].
  rewrite (normalizeMeasures_map _ Hm), !finiteOr_numberToJson. cbn [andThen].
  eexists. split; [reflexivity|].
  cbn [GeneratedScore.id GeneratedScore.key GeneratedScore.bars GeneratedScore.tempo
       GeneratedScore.timeSig GeneratedScore.measures GeneratedScore.createdAt
       GeneratedScore.noteDensity GeneratedScore.highestPitch GeneratedScore.lowestPitch].
  repeat split.
  - destruct (GeneratedScore.lowestPitch s); reflexivity.
  - destruct (GeneratedScore.highestPitch s); reflexivity.
  - destruct (GeneratedScore.id s); reflexivity.
Qed.

Lemma settled_same (n : NoteSpec.t) :
  NoteSpec.key (settled n) = NoteSpec.key n
  /\ NoteSpec.duration (settled n) = NoteSpec.duration n
  /\ (forall a, NoteSpec.accidental (settled n) = value a
                <-> NoteSpec.accidental n = value a)
  /\ (NoteSpec.isRest (settled n) = Some true <-> NoteSpec.isRest n = Some true).
Proof.
  destruct n as [k a d r]. cbn. repeat split; try reflexivity.
  - destruct a; congruence.
  - destruct a; congruence.
  - destruct r as [[|]|]; congruence.
  - destruct r as [[|]|]; congruence.
Qed.

Lemma export_import_roundtrip_witness :
  exists s',
    normalizeImportedScore "fresh" 1700000000001 (scoreToJson (scoreIn "Bb"))
    = Done (Some s')
    /\ GeneratedScore.key s' = "Bb"
    /\ GeneratedScore.timeSig s' = "2/4"
    /\ GeneratedScore.tempo s' = ofZ 100
    /\ GeneratedScore.bars s' = ofZ 1
    /\ GeneratedScore.noteDensity s' = ofZ 70
    /\ GeneratedScore.measures s' = map (map settled) (GeneratedScore.measures (scoreIn "Bb"))
    /\ GeneratedScore.lowestPitch s' = Some "C4"
    /\ GeneratedScore.highestPitch s' = Some "G5"
    /\ GeneratedScore.id s' = "7d9f0c1e"
    /\ GeneratedScore.createdAt s' = ofZ 1700000000000.
Proof.
  apply (export_import_roundtrip (scoreIn "Bb") "fresh" 1700000000001).
  repeat split; try discriminate.
  intros m e [<-|[]] [<-|[]]. right. discriminate.
Defined.

(** ** Worked examples *)

Example noteToMidi_examples :
  map noteToMidi ["c/4"; "g#/5"; "bb/3"; "cb/4"; "f##/2"; "c"; "/4"; "c/x"]
  = map ofZ [60; 80; 58; 59; 43; 60; 60; 60].
Proof. vm_compute. reflexivity. Qed.

Example parsePitch_examples :
  map (option_map midi) (map parsePitch ["c4"; "Ab2"; "E##6"; "H4"; "C"; "4"; "C-1"])
  = [Some 60; Some 44; Some 90; None; None; None; None].
Proof. vm_compute. reflexivity. Qed.

Example StringToNumber_examples :
  map StringToNumber [" 12 "; "1e3"; "0x1F"; "4.5"; ""; "abc"; "1,2"; "-Infinity"]
  = [ofZ 12; ofZ 1000; ofZ 31; Num (9 # 2); ofZ 0; NaN; NaN; NegInf].
Proof. vm_compute. reflexivity. Qed.

Example parseTimeSignature_supported :
  map (fun s => eighthsPerMeasure (parseTimeSignature s)) timeSignatureOptions
  = map Whole [8; 6; 4; 6; 12; 10; 7].
Proof. vm_compute. reflexivity. Qed.

Example parseTimeSignature_odd_inputs :
  map (fun s => eighthsPerMeasure (parseTimeSignature s))
      ["4 / 4"; " 4/4"; "4/4/4"; "4/0"; "0/0"; "0/4"]
  = [Whole 8; Whole 8; Whole 8; WholePosInf; WholeNaN; Whole 0].
Proof. vm_compute. reflexivity. Qed.

Example validOctavesFor_examples :
  validOctavesFor 60 79 = [4; 5]
  /\ validOctavesFor 48 84 = [3; 4; 5; 6]
  /\ validOctavesFor 90 10 = [4].
Proof. repeat split; vm_compute; reflexivity. Qed.

(** With the range C#4..C#4 no natural note of C major is in range: the
    scan finds nothing and every event is the c of the middle octave. *)
Example generateMeasures_fallback :
  option_map (map (map NoteSpec.key))
    match generateMeasures cyclicRandom "C" (ofZ 1) "2/4" (ofZ 100)
            (Some "C#4") (Some "C#4") with
    | Done measures => Some measures
    | _ => None
    end
  = Some [["c/4"; "c/4"]]
  /\ inRange 61 61 (noteToMidi "c/4") = false.
Proof. split; vm_compute; reflexivity. Qed.

Example generateMeasures_five_four :
  option_map (map (map (fun e => (NoteSpec.key e, NoteSpec.duration e))))
    match generateMeasures cyclicRandom "C" (ofZ 1) "5/4" (ofZ 30)
            (Some "C4") (Some "G5") with
    | Done measures => Some measures
    | _ => None
    end
  = Some [[("e/5", Dq); ("a/4", D8); ("c/5", Dh); ("f/5", Dq); ("b/4", D8)]].
Proof. vm_compute. reflexivity. Qed.

Example unknown_key_throws :
  generateMeasures cyclicRandom "H" (ofZ 1) "4/4" (ofZ 70) None None = Throws.
Proof. reflexivity. Qed.

Example endless_measure_diverges :
  generateMeasures cyclicRandom "C" (ofZ 1) "4/0" (ofZ 70) None None = Diverges.
Proof. reflexivity. Qed.

Example import_coerces_numbers :
  match normalizeImportedScore "fresh" 5
          (JObj [("key", JStr "C"); ("timeSig", JStr "4/4"); ("tempo", JArr [JStr "90"]);
                 ("bars", JStr "x"); ("noteDensity", JBool true); ("measures", JArr [])]) with
  | Done (Some s) =>
      (GeneratedScore.tempo s, GeneratedScore.bars s, GeneratedScore.noteDensity s,
       GeneratedScore.id s, GeneratedScore.createdAt s)
      = (ofZ 90, ofZ 1, ofZ 1, "fresh", ofZ 5)
  | _ => False
  end.
Proof. vm_compute. reflexivity. Qed.

Example import_conversion_throws :
  normalizeImportedScore "fresh" 5
    (JObj [("key", JStr "C"); ("timeSig", JStr "4/4");
           ("tempo", JObj [("toString", JNum 1)]); ("measures", JArr [])])
  = Throws.
Proof. reflexivity. Qed.

(** ** The pitch selectors and parsePitch *)

(** X1: Every pitch the two selectors offer is a pitch [parsePitch] accepts,
    with a height between 36 and 107; the generator therefore never falls
    back to its default bounds for a pitch chosen there. *)
Theorem pitchOptions_parse (pitch : string) :
  In pitch pitchOptions ->
  exists info,
    parsePitch pitch = Some info
    /\ 36 <= midi info <= 107
    /\ forall dflt, resolveMidi (Some pitch) dflt = midi info.
Proof.
  intros Hin.
  assert (All : forallb (parsesWithin 36 107) pitchOptions = true)
    by (vm_compute; reflexivity).
  rewrite forallb_forall in All. specialize (All pitch Hin).
  unfold parsesWithin in All.
  destruct (parsePitch pitch) as [info|] eqn:E; [|discriminate].
  exists info. split; [reflexivity|]. split; [lia|].
  intros dflt. now apply resolveMidi_parsed.
Qed.

Lemma pitchOptions_parse_witness :
  exists info,
    parsePitch "Eb3" = Some info
    /\ 36 <= midi info <= 107
    /\ forall dflt, resolveMidi (Some "Eb3") dflt = midi info.
Proof.
  apply pitchOptions_parse. vm_compute. tauto.
Defined.

Lemma matchPitch_shape (c : ascii) (g2 g3 : string) :
  isNoteLetter c = true -> allChars isAccidentalChar g2 = true ->
  g3 <> "" -> allChars isDigit g3 = true ->
  matchPitch (String c (g2 ++ g3)) = Some (c, g2, g3).
Proof.
  intros L A N D. unfold matchPitch. rewrite L.
  rewrite (span_app isAccidentalChar g2 g3 A).
  - rewrite (span_all isDigit g3 D). apply isEmpty_false in N. now rewrite N.
  - destruct g3 as [|d g3]; [congruence|]. simpl in D.
    apply andb_prop in D as [Dd _]. now apply digit_not_accidental.
Qed.



(** X3: A run of sharps and flats other than #, ##, b and bb counts for
    nothing: the pitch gets the height of the plain letter. *)
Theorem parsePitch_ignores_other_accidentals (c : ascii) (g2 g3 : string) :
  isNoteLetter c = true -> allChars isAccidentalChar g2 = true ->
  g3 <> "" -> allChars isDigit g3 = true ->
  ~ In g2 ["#"; "##"; "b"; "bb"] ->
  exists info,
    parsePitch (String c (g2 ++ g3)) = Some info
    /\ option_map midi (parsePitch (String c g3)) = Some (midi info).
Proof.
  intros L A N D Hnot.
  pose proof (matchPitch_shape c g2 g3 L A N D) as E1.
  pose proof (matchPitch_shape c "" g3 L eq_refl N D) as E2.
  cbn [append] in E2.
  unfold parsePitch. rewrite E1, E2. eexists. split; [reflexivity|].
  cbn [option_map midi]. do 2 f_equal.
  assert (Z0 : accidentalOffset g2 = 0).
  { unfold accidentalOffset.
    destruct (String.eqb_spec g2 "#"); [subst; exfalso; apply Hnot; simpl; tauto|].
    destruct (String.eqb_spec g2 "##"); [subst; exfalso; apply Hnot; simpl; tauto|].
    destruct (String.eqb_spec g2 "b"); [subst; exfalso; apply Hnot; simpl; tauto|].
    destruct (String.eqb_spec g2 "bb"); [subst; exfalso; apply Hnot; simpl; tauto|].
    reflexivity. }
  rewrite Z0. reflexivity.
Qed.

Lemma parsePitch_ignores_other_accidentals_witness :
  exists info,
    parsePitch "C#b###4" = Some info
    /\ option_map midi (parsePitch "C4") = Some (midi info).
Proof.
  apply (parsePitch_ignores_other_accidentals "C" "#b###" "4");
    try reflexivity; try discriminate.
  simpl. intros [E|[E|[E|[E|[]]]]]; discriminate.
Defined.

(** ** noteToMidi on odd keys *)

(** X4: [noteToMidi] always returns a number that can be compared: it is never
    [NaN].  A key with no slash, and a key that starts with the slash, give
    60, the middle C. *)
Theorem noteToMidi_defaults :
  (forall noteKey, noteToMidi noteKey <> NaN)
  /\ (forall noteKey,
        allChars (fun c => negb (isSlash c)) noteKey = true ->
        noteToMidi noteKey = ofZ 60)
  /\ (forall rest, noteToMidi (String "/" rest) = ofZ 60).
Proof.
  split; [|split].
  - intros noteKey. unfold noteToMidi.
    set (parts := split_slash noteKey).
    destruct (nth_error parts 1) as [octaveStr|]; cbn [Number_isNaN].
    2:{ rewrite orb_true_r. discriminate. }
    destruct (StringToNumber octaveStr) as [q| | |] eqn:E; cbn [Number_isNaN];
      rewrite ?orb_true_r, ?orb_false_r; try discriminate;
      destruct (nth 0 parts "") as [|c accidentals]; cbn [isEmpty];
      try discriminate;
      destruct (baseOffsets (toLowerCase c)); simpl; try discriminate.
  - intros noteKey A. unfold noteToMidi.
    rewrite (split_slash_plain noteKey A). cbn [nth nth_error Number_isNaN].
    rewrite orb_true_r. reflexivity.
  - intros rest. unfold noteToMidi. cbn [split_slash].
    change (isSlash "/") with true. cbn [nth isEmpty orb]. reflexivity.
Qed.

Lemma noteToMidi_defaults_witness : noteToMidi "g#" = ofZ 60.
Proof. apply (proj1 (proj2 noteToMidi_defaults)). reflexivity. Defined.

(** ** parseTimeSignature where nothing is lost to rounding *)



(** ** The events of generateMeasures *)

Lemma validOctavesFor_nonempty (lowestMidi highestMidi : Z) :
  validOctavesFor lowestMidi highestMidi <> [].
Proof.
  unfold validOctavesFor.
  destruct (filter (octaveOverlaps lowestMidi highestMidi) [2; 3; 4; 5; 6; 7]);
    discriminate.
Qed.

Lemma validOctavesFor_bounds (lowestMidi highestMidi o : Z) :
  In o (validOctavesFor lowestMidi highestMidi) -> 2 <= o <= 7.
Proof.
  unfold validOctavesFor.
  destruct (filter (octaveOverlaps lowestMidi highestMidi) [2; 3; 4; 5; 6; 7])
    as [|x l] eqn:E.
  - intros [<-|[]]. lia.
  - rewrite <- E. intros I. apply filter_In in I as [I _].
    simpl in I. lia.
Qed.

Section GeneratorEvents.
Context {K : Type} `{KeyManager K}.
Variable random : nat -> sample.
Variable k0 : K.
Variables lowestMidi highestMidi : Z.
Variable validOctaves : list Z.
Hypothesis validOctaves_nonempty : validOctaves <> [].

(** A value of [Math.random] times the length, rounded down, is an index
    of the list. *)
Lemma randomChoice_In {T} (dflt : T) (items : list T) (s : gstate K) :
  items <> [] -> In (fst (randomChoice random dflt items s)) items.
Proof.
  intros N. unfold randomChoice, bind, Math_random, ret. cbn [fst].
  apply nth_In.
  destruct (random (draws s)) as [u Hu]. cbn [sval].
  unfold inUnitInterval in Hu. apply andb_true_iff in Hu as [H0 H1].
  apply Qle_bool_iff in H0. apply negb_true_iff in H1.
  assert (Hlt : (u < 1)%Q).
  { apply Qnot_le_lt. intros C. apply Qle_bool_iff in C. congruence. }
  set (n := Z.of_nat (length items)).
  assert (Hn : 0 < n).
  { subst n. destruct items; [congruence | simpl; lia]. }
  assert (Hq : (0 < inject_Z n)%Q).
  { change 0%Q with (inject_Z 0). rewrite <- Zlt_Qlt. exact Hn. }
  assert (Lo : 0 <= Qfloor (u * inject_Z n)).
  { rewrite <- (Qfloor_Z 0). apply Qfloor_resp_le.
    change (inject_Z 0) with 0%Q. apply Qmult_le_0_compat; [exact H0|].
    apply Qlt_le_weak, Hq. }
  assert (Hi : Qfloor (u * inject_Z n) < n).
  { rewrite Zlt_Qlt. eapply Qle_lt_trans; [apply Qfloor_le|].
    rewrite <- (Qmult_1_l (inject_Z n)) at 2.
    apply Qmult_lt_compat_r; assumption. }
  subst n. lia.
Qed.

Lemma scanLetters_selected (o : Z) (letters : list string) (s : gstate K) :
  evolves k0 (km s) ->
  match fst (scanLetters lowestMidi highestMidi o letters s) with
  | Some sel => exists k l, evolves k0 k /\ In l letters /\ sel = fst (selectNote k l)
  | None => True
  end.
Proof.
  revert s; induction letters as [|l letters IH]; intros s Ev; [exact I|].
  cbn [scanLetters]. unfold bind.
  destruct (selectNoteM_evolves k0 l s Ev) as [Ev' Esel].
  destruct (selectNoteM l s) as [sel s1]. cbn [fst snd] in Ev', Esel.
  destruct (inRange lowestMidi highestMidi (noteToMidi (noteKeyOf sel o))).
  - exists (km s), l. split; [exact Ev|]. split; [now left | exact Esel].
  - specialize (IH s1 Ev').
    destruct (fst (scanLetters lowestMidi highestMidi o letters s1)); [|exact I].
    destruct IH as (k & l' & Ek & Il & E). exists k, l'.
    split; [exact Ek|]. split; [now right | exact E].
Qed.

Lemma scanOctaves_selected (octaves : list Z) (s : gstate K) :
  evolves k0 (km s) ->
  match fst (scanOctaves lowestMidi highestMidi octaves s) with
  | Some (o, sel) =>
      In o octaves
      /\ exists k l, evolves k0 k /\ In l baseNotes /\ sel = fst (selectNote k l)
  | None => True
  end.
Proof.
  revert s; induction octaves as [|o octaves IH]; intros s Ev; [exact I|].
  cbn [scanOctaves]. unfold bind.
  pose proof (scanLetters_selected o baseNotes s Ev) as L.
  destruct (scanLetters_spec k0 lowestMidi highestMidi o baseNotes s Ev) as [Ev1 _].
  destruct (scanLetters lowestMidi highestMidi o baseNotes s) as [[sel|] s1];
    cbn [fst snd] in L, Ev1.
  - split; [now left | exact L].
  - specialize (IH s1 Ev1).
    destruct (fst (scanOctaves lowestMidi highestMidi octaves s1)) as [[o' sel']|];
      [|exact I].
    destruct IH as [Io E]. split; [now right | exact E].
Qed.

Lemma sampleNote_selected (budget : nat) :
  forall (o : Z) (sel : Selection) (s : gstate K)
         (gen : bool) (o' : Z) (sel' : Selection) (s' : gstate K),
    evolves k0 (km s) ->
    selectedBy k0 validOctaves o sel ->
    sampleNote random lowestMidi highestMidi validOctaves budget o sel s
    = (gen, o', sel', s') ->
    selectedBy k0 validOctaves o' sel'.
Proof.
  induction budget as [|budget IH]; intros o sel s gen o' sel' s' Ev S E.
  - cbn in E. inversion E; subst. exact S.
  - cbn [sampleNote] in E. unfold bind in E.
    pose proof (randomChoice_km random 0 validOctaves s) as K1.
    pose proof (randomChoice_In 0 validOctaves s validOctaves_nonempty) as I1.
    destruct (randomChoice random 0 validOctaves s) as [o1 s1]. cbn [fst snd] in K1, I1.
    pose proof (randomChoice_km random "" baseNotes s1) as K2.
    pose proof (randomChoice_In "" baseNotes s1 ltac:(discriminate)) as I2.
    destruct (randomChoice random "" baseNotes s1) as [letter s2]. cbn [fst snd] in K2, I2.
    assert (Ev2 : evolves k0 (km s2)) by now rewrite K2, K1.
    destruct (selectNoteM_evolves k0 letter s2 Ev2) as [Ev3 Esel].
    destruct (selectNoteM letter s2) as [sel1 s3]. cbn [fst snd] in Ev3, Esel.
    assert (S1 : selectedBy k0 validOctaves o1 sel1).
    { exists (km s2), letter. repeat split; assumption. }
    destruct (inRange lowestMidi highestMidi (noteToMidi (noteKeyOf sel1 o1))).
    + unfold ret in E. inversion E; subst. exact S1.
    + exact (IH o1 sel1 s3 gen o' sel' s' Ev3 S1 E).
Qed.

Lemma middleOctave_In : In (middleOctave validOctaves) validOctaves.
Proof.
  unfold middleOctave. apply nth_In.
  destruct validOctaves as [|x l]; [congruence|].
  apply Nat.div_lt; simpl; lia.
Qed.

Lemma pickPitch_selected (s s' : gstate K) (o : Z) (sel : Selection) :
  evolves k0 (km s) ->
  pickPitch random lowestMidi highestMidi validOctaves s = (o, sel, s') ->
  selectedBy k0 validOctaves o sel.
Proof.
  intros Ev E. unfold pickPitch in E. unfold bind at 1 in E.
  destruct (selectNoteM_evolves k0 (nth 0 baseNotes "") s Ev) as [Ev0 Esel0].
  destruct (selectNoteM (nth 0 baseNotes "") s) as [sel0 s0]. cbn [fst snd] in Ev0, Esel0.
  unfold bind at 1 in E.
  assert (S0 : selectedBy k0 validOctaves (nth 0 validOctaves 0) sel0).
  { exists (km s), "c". split; [exact Ev|]. split; [now left|].
    split; [|exact Esel0].
    apply nth_In. destruct validOctaves; [congruence | simpl; lia]. }
  destruct (sampleNote random lowestMidi highestMidi validOctaves 50
              (nth 0 validOctaves 0) sel0 s0) as [[[gen o1] sel1] s1] eqn:Es.
  pose proof (sampleNote_selected 50 _ _ _ _ _ _ _ Ev0 S0 Es) as S1.
  destruct (sampleNote_spec random k0 lowestMidi highestMidi validOctaves
              50 _ _ _ _ _ _ _ Ev0 Es) as [Ev1 _].
  destruct gen.
  - unfold ret in E. inversion E; subst. exact S1.
  - unfold bind at 1 in E.
    pose proof (scanOctaves_selected validOctaves s1 Ev1) as Sc.
    destruct (scanOctaves_spec k0 lowestMidi highestMidi validOctaves s1 Ev1) as [Ev2 _].
    destruct (scanOctaves lowestMidi highestMidi validOctaves s1) as [[[o2 sel2]|] s2];
      cbn [fst snd] in Ev2, Sc.
    + unfold ret in E. inversion E; subst.
      destruct Sc as (Io & k & l & Ek & Il & El). exists k, l. repeat split; assumption.
    + unfold bind, ret in E.
      destruct (selectNoteM_evolves k0 (nth 0 baseNotes "") s2 Ev2) as [Ev3 Esel].
      destruct (selectNoteM (nth 0 baseNotes "") s2) as [sel3 s3].
      cbn [fst snd] in Ev3, Esel. inversion E; subst.
      exists (km s2), "c". split; [exact Ev2|]. split; [now left|].
      split; [apply middleOctave_In | reflexivity].
Qed.

Variable noteDensity : number.
Variable P : NoteSpec.t -> Prop.
Hypothesis P_event :
  forall octave selection choice n,
    selectedBy k0 validOctaves octave selection ->
    justified k0 lowestMidi highestMidi validOctaves (noteKeyOf selection octave) ->
    In choice durationPool ->
    P {| NoteSpec.key := noteKeyOf selection octave;
         NoteSpec.accidental := sel_accidental selection;
         NoteSpec.duration := Pool.duration choice;
         NoteSpec.isRest :=
           Some (negb (Qle_bool (restChance noteDensity) (sval (random n)))) |}.

(** Whatever holds of every event the loop can build holds of the events of
    the measure it returns. *)
Lemma fillMeasure_events (fuel : nat) :
  forall (eighthsLeft : Z) (measure measure' : list NoteSpec.t) (s s' : gstate K),
    evolves k0 (km s) ->
    Forall P measure ->
    fillMeasure random noteDensity lowestMidi highestMidi validOctaves
      fuel eighthsLeft measure s = Done (measure', s') ->
    evolves k0 (km s') /\ Forall P measure'.
Proof.
  induction fuel as [|fuel IH]; intros eighthsLeft measure measure' s s' Ev Hm E.
  - cbn [fillMeasure] in E. destruct (0 <? eighthsLeft); [discriminate|].
    inversion E; subst. split; assumption.
  - cbn [fillMeasure] in E.
    destruct (Z.ltb_spec 0 eighthsLeft) as [Pos|Pos].
    2:{ inversion E; subst. split; assumption. }
    set (allowed := filter (fun d => Pool.eighths d <=? eighthsLeft) durationPool) in E.
    assert (Hin : In {| Pool.duration := D8; Pool.beats := 1 # 2; Pool.eighths := 1 |}
                     allowed).
    { apply filter_In. split; [simpl; auto|]. simpl. apply Z.leb_le. lia. }
    destruct allowed as [|first rest] eqn:Ea; [destruct Hin|].
    set (weights := map (weightOf (densityRatio noteDensity)) (first :: rest)) in E.
    pose proof (weightedChoice_In random first (first :: rest) weights s
                  ltac:(discriminate)) as Hc.
    pose proof (weightedChoice_km random first (first :: rest) weights s) as Hk.
    destruct (weightedChoice random first (first :: rest) weights s) as [choice s1].
    cbn [fst snd] in Hc, Hk. rewrite <- Ea in Hc. apply filter_In in Hc as [Hpool _].
    assert (Ev1 : evolves k0 (km s1)) by now rewrite Hk.
    destruct (pickPitch random lowestMidi highestMidi validOctaves s1)
      as [[octave selection] s2] eqn:Ep.
    pose proof (pickPitch_selected s1 s2 octave selection Ev1 Ep) as Hs.
    destruct (pickPitch_justified random k0 lowestMidi highestMidi validOctaves
                s1 s2 octave selection Ev1 Ep) as [Ev2 Hj].
    unfold Math_random in E.
    refine (IH _ _ _ {| km := km s2; draws := S (draws s2) |} _ Ev2 _ E).
    apply Forall_app. split; [assumption|].
    constructor; [|constructor]. apply P_event; assumption.
Qed.

Lemma measuresLoop_events (eighths : whole) (count : nat) :
  forall (measures result : list (list NoteSpec.t)) (s : gstate K),
    evolves k0 (km s) ->
    Forall (Forall P) measures ->
    measuresLoop random noteDensity lowestMidi highestMidi validOctaves eighths
      count measures s = Done result ->
    Forall (Forall P) result.
Proof.
  induction count as [|count IH]; intros measures result s Ev Hall E.
  - cbn in E. inversion E; subst. exact Hall.
  - cbn [measuresLoop] in E.
    destruct (generateMeasure random noteDensity lowestMidi highestMidi validOctaves
                eighths s) as [[m s1]| |] eqn:G; try discriminate.
    assert (evolves k0 (km s1) /\ Forall P m) as [Ev1 Hm].
    { destruct eighths as [z| | |]; cbn [generateMeasure] in G.
      - exact (fillMeasure_events _ _ _ _ _ _ Ev (Forall_nil _) G).
      - discriminate.
      - inversion G; subst. split; [exact Ev | constructor].
      - inversion G; subst. split; [exact Ev | constructor]. }
    apply (IH _ _ _ Ev1) in E; [exact E|].
    apply Forall_app. split; [assumption | constructor; [exact Hm | constructor]].
Qed.

End GeneratorEvents.

Lemma inRange_empty (lowestMidi highestMidi : Z) (m : number) :
  highestMidi < lowestMidi -> inRange lowestMidi highestMidi m = false.
Proof.
  intros Hlt. unfold inRange, greaterEq, ofZ.
  destruct m as [a| | |]; cbn [lessEq]; try reflexivity.
  - destruct (Qle_bool (inject_Z lowestMidi) a) eqn:L; [|reflexivity].
    destruct (Qle_bool a (inject_Z highestMidi)) eqn:U; [|reflexivity].
    apply Qle_bool_iff in L, U.
    pose proof (Qle_trans _ _ _ L U) as C. rewrite <- Zle_Qle in C. lia.
Qed.

Lemma integersFrom_In (lo : Z) (count : nat) (z : Z) :
  lo <= z < lo + Z.of_nat count -> In z (integersFrom lo count).
Proof.
  intros Hz. unfold integersFrom. apply in_map_iff.
  exists (Z.to_nat (z - lo)). split; [lia|].
  apply in_seq. lia.
Qed.

(** Of two neighbouring heights one is a letter without accidental. *)
Lemma hasNatural_two_semitones (lowestMidi highestMidi : Z) :
  36 <= lowestMidi -> lowestMidi < highestMidi -> highestMidi <= 107 ->
  hasNatural lowestMidi highestMidi = true.
Proof.
  intros Hlo Hlt Hhi.
  assert (All : forallb (fun lo => forallb (fun hi => (hi <=? lo) || hasNatural lo hi)
                                           (integersFrom 36 72))
                        (integersFrom 36 72) = true)
    by (vm_compute; reflexivity).
  rewrite forallb_forall in All.
  specialize (All lowestMidi (integersFrom_In 36 72 lowestMidi ltac:(lia))).
  rewrite forallb_forall in All.
  specialize (All highestMidi (integersFrom_In 36 72 highestMidi ltac:(lia))).
  apply orb_true_iff in All as [C|E]; [apply Z.leb_le in C; lia | exact E].
Qed.

(** ** Density, rest chance and weights *)

Lemma densityRatio_range (noteDensity : number) :
  (0 <= densityRatio noteDensity)%Q /\ (densityRatio noteDensity <= 1)%Q.
Proof.
  unfold densityRatio. split; [apply Q.le_max_l|].
  apply Q.max_lub; [lra | apply Q.le_min_l].
Qed.


Lemma restChance_range (noteDensity : number) :
  (1 # 20 <= restChance noteDensity)%Q /\ (restChance noteDensity <= 2 # 5)%Q.
Proof.
  unfold restChance. destruct (densityRatio_range noteDensity) as [L U].
  revert L U. generalize (densityRatio noteDensity) as r. intros r L U. split.
  - eapply Qle_trans; [|apply Q.le_max_r]. apply Q.min_glb; lra.
  - apply Q.max_lub; [lra|]. eapply Qle_trans; [apply Q.le_min_l | lra].
Qed.


Section GenerateEvents.
Context {K : Type} `{KeyManager K}.
Variable random : nat -> sample.

Lemma generateMeasures_events (key : string) (keyManager : K) (bars : number)
  (timeSig : string) (noteDensity : number) (lowestPitch highestPitch : option string)
  (P : NoteSpec.t -> Prop) (measures : list (list NoteSpec.t)) :
  newKeyManager key = Some keyManager ->
  (forall octave selection choice n,
     selectedBy keyManager
       (validOctavesFor (resolveMidi lowestPitch 48) (resolveMidi highestPitch 84))
       octave selection ->
     justified keyManager (resolveMidi lowestPitch 48) (resolveMidi highestPitch 84)
       (validOctavesFor (resolveMidi lowestPitch 48) (resolveMidi highestPitch 84))
       (noteKeyOf selection octave) ->
     In choice durationPool ->
     P {| NoteSpec.key := noteKeyOf selection octave;
          NoteSpec.accidental := sel_accidental selection;
          NoteSpec.duration := Pool.duration choice;
          NoteSpec.isRest :=
            Some (negb (Qle_bool (restChance noteDensity) (sval (random n)))) |}) ->
  generateMeasures random key bars timeSig noteDensity lowestPitch highestPitch
  = Done measures ->
  forall m e, In m measures -> In e m -> P e.
Proof.
  intros Hkey HP E. unfold generateMeasures in E. rewrite Hkey in E.
  destruct (barRounds bars) as [count|]; [|discriminate].
  pose proof (measuresLoop_events random keyManager _ _ _
                (validOctavesFor_nonempty _ _) noteDensity P HP _ count [] measures
                {| km := keyManager; draws := 0 |} (evolves_refl _) (Forall_nil _) E) as All.
  intros m e Hm He. rewrite Forall_forall in All. specialize (All m Hm).
  rewrite Forall_forall in All. exact (All e He).
Qed.

(** X7: Whatever the key, the range and the draws, every event of every measure
    is built from one answer of the key manager of the active key to one of
    the seven letters: the event's key is the answered note, a slash and a
    candidate octave, which lies between 2 and 7; the accidental is the
    answered one; and the rest flag is set. *)
Theorem generateMeasures_event_shape (key : string) (keyManager : K) (bars : number)
  (timeSig : string) (noteDensity : number) (lowestPitch highestPitch : option string) :
  newKeyManager key = Some keyManager ->
  bars <> PosInf ->
  eighthsPerMeasure (parseTimeSignature timeSig) <> WholePosInf ->
  exists measures,
    generateMeasures random key bars timeSig noteDensity lowestPitch highestPitch
    = Done measures
    /\ (forall m e, In m measures -> In e m ->
          eventShape keyManager
            (validOctavesFor (resolveMidi lowestPitch 48) (resolveMidi highestPitch 84)) e)
    /\ (forall o,
          In o (validOctavesFor (resolveMidi lowestPitch 48) (resolveMidi highestPitch 84)) ->
          2 <= o <= 7).
Proof.
  intros Hkey Hbars Hfin.
  destruct (generateMeasures_correct random key keyManager bars timeSig noteDensity
              lowestPitch highestPitch Hkey Hbars Hfin)
    as (measures & rounds & E & _).
  exists measures. split; [exact E|]. split; [|apply validOctavesFor_bounds].
  apply (generateMeasures_events key keyManager bars timeSig noteDensity
           lowestPitch highestPitch _ measures Hkey); [|exact E].
  intros octave selection choice n S _ _.
  exists octave, selection. repeat split; [exact S | discriminate].
Qed.

(** X8: An event is a rest exactly when the draw made for it is below the rest
    chance, which lies between 1/20 and 2/5: if no draw of the random source
    is below 2/5, no event is a rest, and if every draw is below 1/20, every
    event is a rest. *)
Theorem generateMeasures_rests (key : string) (keyManager : K) (bars : number)
  (timeSig : string) (noteDensity : number) (lowestPitch highestPitch : option string) :
  newKeyManager key = Some keyManager ->
  bars <> PosInf ->
  eighthsPerMeasure (parseTimeSignature timeSig) <> WholePosInf ->
  exists measures,
    generateMeasures random key bars timeSig noteDensity lowestPitch highestPitch
    = Done measures
    /\ ((forall n, (2 # 5 <= sval (random n))%Q) ->
        forall m e, In m measures -> In e m -> NoteSpec.isRest e = Some false)
    /\ ((forall n, (sval (random n) < 1 # 20)%Q) ->
        forall m e, In m measures -> In e m -> NoteSpec.isRest e = Some true).
Proof.
  intros Hkey Hbars Hfin.
  destruct (generateMeasures_correct random key keyManager bars timeSig noteDensity
              lowestPitch highestPitch Hkey Hbars Hfin)
    as (measures & rounds & E & _).
  exists measures. split; [exact E|].
  destruct (restChance_range noteDensity) as [Lo Hi].
  split; intros Hdraw.
  - apply (generateMeasures_events key keyManager bars timeSig noteDensity
             lowestPitch highestPitch _ measures Hkey); [|exact E].
    intros octave selection choice n _ _ _. cbn [NoteSpec.isRest]. f_equal.
    apply negb_false_iff.
    apply Qle_bool_iff. eapply Qle_trans; [exact Hi | apply Hdraw].
  - apply (generateMeasures_events key keyManager bars timeSig noteDensity
             lowestPitch highestPitch _ measures Hkey); [|exact E].
    intros octave selection choice n _ _ _. cbn [NoteSpec.isRest]. f_equal.
    apply negb_true_iff.
    destruct (Qle_bool (restChance noteDensity) (sval (random n))) eqn:C; [|reflexivity].
    apply Qle_bool_iff in C. specialize (Hdraw n).
    exfalso. apply (Qlt_not_le _ _ Hdraw). eapply Qle_trans; [exact Lo | exact C].
Qed.

(** X9: When the lowest pitch is above the highest one, no height is within the
    range, and every event of every measure is the fallback: the answer of
    the key manager for the letter c, at the middle candidate octave. *)
Theorem generateMeasures_inverted_range (key : string) (keyManager : K) (bars : number)
  (timeSig : string) (noteDensity : number) (lowestPitch highestPitch : string)
  (low high : PitchInfo) :
  parsePitch lowestPitch = Some low ->
  parsePitch highestPitch = Some high ->
  midi high < midi low ->
  newKeyManager key = Some keyManager ->
  bars <> PosInf ->
  eighthsPerMeasure (parseTimeSignature timeSig) <> WholePosInf ->
  exists measures,
    generateMeasures random key bars timeSig noteDensity
      (Some lowestPitch) (Some highestPitch) = Done measures
    /\ forall m e, In m measures -> In e m ->
         fallbackEvent keyManager (validOctavesFor (midi low) (midi high)) e
         /\ inRange (midi low) (midi high) (noteToMidi (NoteSpec.key e)) = false.
Proof.
  intros Elow Ehigh Hlt Hkey Hbars Hfin.
  destruct (generateMeasures_correct random key keyManager bars timeSig noteDensity
              (Some lowestPitch) (Some highestPitch) Hkey Hbars Hfin)
    as (measures & rounds & E & _ & _ & Hall).
  rewrite (resolveMidi_parsed _ _ _ Elow), (resolveMidi_parsed _ _ _ Ehigh) in Hall.
  exists measures. split; [exact E|].
  intros m e Hm He. rewrite Forall_forall in Hall.
  destruct (Hall m Hm) as [_ Hev]. rewrite Forall_forall in Hev.
  split; [|now apply inRange_empty].
  destruct (Hev e He) as [R|[_ F]].
  - rewrite inRange_empty in R by exact Hlt. discriminate.
  - exact F.
Qed.

(** X10: In a key whose manager answers every letter with the letter itself (a
    key without accidentals), a range of two or more neighbouring heights
    between C2 and B7 always holds a letter, so every event of every
    measure lies within the range. *)
Theorem generateMeasures_natural_key_in_range (key : string) (keyManager : K)
  (bars : number) (timeSig : string) (noteDensity : number)
  (lowestPitch highestPitch : string) (low high : PitchInfo) :
  (forall k l, In l baseNotes -> sel_note (fst (selectNote k l)) = l) ->
  parsePitch lowestPitch = Some low ->
  parsePitch highestPitch = Some high ->
  36 <= midi low -> midi low < midi high -> midi high <= 107 ->
  newKeyManager key = Some keyManager ->
  bars <> PosInf ->
  eighthsPerMeasure (parseTimeSignature timeSig) <> WholePosInf ->
  exists measures,
    generateMeasures random key bars timeSig noteDensity
      (Some lowestPitch) (Some highestPitch) = Done measures
    /\ forall m e, In m measures -> In e m ->
         inRange (midi low) (midi high) (noteToMidi (NoteSpec.key e)) = true.
Proof.
  intros Hnat Elow Ehigh H36 Hlt H107 Hkey Hbars Hfin.
  destruct (generateMeasures_correct random key keyManager bars timeSig noteDensity
              (Some lowestPitch) (Some highestPitch) Hkey Hbars Hfin)
    as (measures & rounds & E & _ & _ & Hall).
  rewrite (resolveMidi_parsed _ _ _ Elow), (resolveMidi_parsed _ _ _ Ehigh) in Hall.
  exists measures. split; [exact E|].
  intros m e Hm He. rewrite Forall_forall in Hall.
  destruct (Hall m Hm) as [_ Hev]. rewrite Forall_forall in Hev.
  destruct (Hev e He) as [R|[No _]]; [exact R|].
  pose proof (hasNatural_two_semitones _ _ H36 Hlt H107) as Has.
  unfold hasNatural in Has. apply existsb_exists in Has as (o & Ho & Has).
  apply existsb_exists in Has as (l & Hl & Has).
  destruct (No o l Ho Hl) as (k & _ & C).
  unfold noteKeyOf in C. rewrite (Hnat k l Hl) in C. congruence.
Qed.

End GenerateEvents.

Lemma generateMeasures_event_shape_witness :
  exists measures,
    generateMeasures cyclicRandom "C" (ofZ 2) "6/8" (ofZ 70) (Some "C4") (Some "G5")
    = Done measures
    /\ (forall m e, In m measures -> In e m ->
          eventShape tt
            (validOctavesFor (resolveMidi (Some "C4") 48) (resolveMidi (Some "G5") 84)) e)
    /\ (forall o,
          In o (validOctavesFor (resolveMidi (Some "C4") 48) (resolveMidi (Some "G5") 84)) ->
          2 <= o <= 7).
Proof.
  apply (generateMeasures_event_shape cyclicRandom "C" tt).
  - reflexivity.
  - discriminate.
  - vm_compute. discriminate.
Defined.

Lemma generateMeasures_rests_witness :
  exists measures,
    generateMeasures (constantRandom half) "C" (ofZ 2) "3/4" (ofZ 55) None None
    = Done measures
    /\ ((forall n, (2 # 5 <= sval (constantRandom half n))%Q) ->
        forall m e, In m measures -> In e m -> NoteSpec.isRest e = Some false)
    /\ ((forall n, (sval (constantRandom half n) < 1 # 20)%Q) ->
        forall m e, In m measures -> In e m -> NoteSpec.isRest e = Some true).
Proof.
  apply (generateMeasures_rests (constantRandom half) "C" tt).
  - reflexivity.
  - discriminate.
  - vm_compute. discriminate.
Defined.

Lemma generateMeasures_inverted_range_witness :
  exists measures,
    generateMeasures cyclicRandom "C" (ofZ 3) "4/4" (ofZ 70) (Some "G5") (Some "C4")
    = Done measures
    /\ forall m e, In m measures -> In e m ->
         fallbackEvent tt (validOctavesFor 79 60) e
         /\ inRange 79 60 (noteToMidi (NoteSpec.key e)) = false.
Proof.
  apply (generateMeasures_inverted_range cyclicRandom "C" tt (ofZ 3) "4/4" (ofZ 70)
           "G5" "C4" {| midi := 79; octave := 5; note := "g" |}
           {| midi := 60; octave := 4; note := "c" |}).
  - reflexivity.
  - reflexivity.
  - simpl. lia.
  - reflexivity.
  - discriminate.
  - vm_compute. discriminate.
Defined.

Lemma generateMeasures_natural_key_in_range_witness :
  exists measures,
    generateMeasures cyclicRandom "C" (ofZ 2) "5/4" (ofZ 30) (Some "C#4") (Some "D4")
    = Done measures
    /\ forall m e, In m measures -> In e m ->
         inRange 61 62 (noteToMidi (NoteSpec.key e)) = true.
Proof.
  apply (generateMeasures_natural_key_in_range cyclicRandom "C" tt (ofZ 2) "5/4" (ofZ 30)
           "C#4" "D4" {| midi := 61; octave := 4; note := "c" |}
           {| midi := 62; octave := 4; note := "d" |}).
  - intros k l _. reflexivity.
  - reflexivity.
  - reflexivity.
  - simpl. lia.
  - simpl. lia.
  - simpl. lia.
  - reflexivity.
  - discriminate.
  - vm_compute. discriminate.
Defined.

(** ** When generateMeasures returns *)

Section GenerateOutcome.
Context {K : Type} `{KeyManager K}.
Variable random : nat -> sample.

Lemma measuresLoop_endless (noteDensity : number) (lowestMidi highestMidi : Z)
  (validOctaves : list Z) (count : nat) (measures : list (list NoteSpec.t))
  (s : gstate K) :
  measuresLoop random noteDensity lowestMidi highestMidi validOctaves WholePosInf
    (S count) measures s = Diverges.
Proof. reflexivity. Qed.

Lemma measuresLoop_empty (noteDensity : number) (lowestMidi highestMidi : Z)
  (validOctaves : list Z) (count : nat) :
  forall (measures : list (list NoteSpec.t)) (s : gstate K),
    measuresLoop random noteDensity lowestMidi highestMidi validOctaves WholeNaN
      count measures s = Done (measures ++ repeat [] count)%list.
Proof.
  induction count as [|count IH]; intros measures s.
  - cbn. now rewrite app_nil_r.
  - cbn [measuresLoop generateMeasure]. rewrite IH.
    rewrite <- app_assoc. reflexivity.
Qed.


(** X12: A time signature whose denominator is written with zeros only: with a
    positive numerator a measure holds infinitely many units, and
    [generateMeasures] never returns for a positive bar count; with the
    numerator zero too the unit count is not a number, and every measure
    stays empty. *)
Theorem generateMeasures_zero_denominator (key : string) (keyManager : K) (b : Q)
  (g1 g2 : string) (noteDensity : number) (lowestPitch highestPitch : option string) :
  g1 <> "" -> allChars isDigit g1 = true ->
  g2 <> "" -> allChars isDigit g2 = true ->
  digitsValue g2 = 0 ->
  newKeyManager key = Some keyManager ->
  (0 < b)%Q ->
  generateMeasures random key (Num b) (g1 ++ "/" ++ g2) noteDensity
    lowestPitch highestPitch
  = if 0 <? digitsValue g1 then Diverges
    else Done (repeat [] (Z.to_nat (Qceiling b))).
Proof.
  intros N1 D1 N2 D2 Hz Hkey Hb.
  pose proof (matchTimeSig_shape g1 "" "" g2 N1 D1 eq_refl eq_refl N2 D2) as M.
  cbn [append] in M. change ("/" ++ g2) with (String "/" g2).
  unfold generateMeasures. rewrite Hkey.
  rewrite (parseTimeSignature_matched _ g1 g2 M). cbn [eighthsPerMeasure barRounds].
  rewrite Hz. pose proof (digitsValue_nonneg g1 D1) as Hn.
  assert (Hc : exists n, Z.to_nat (Qceiling b) = S n).
  { assert (0 < Qceiling b).
    { rewrite Zlt_Qlt. eapply Qlt_le_trans; [exact Hb | apply Qle_ceiling]. }
    exists (Z.to_nat (Qceiling b - 1)). lia. }
  destruct Hc as [n Hc]. unfold divide. cbn [Z.eqb].
  destruct (Z.ltb_spec 0 (digitsValue g1)) as [P|P].
  - replace (digitsValue g1 * 4 =? 0) with false by (symmetry; apply Z.eqb_neq; lia).
    replace (0 <? digitsValue g1 * 4) with true by (symmetry; apply Z.ltb_lt; lia).
    cbn [toFixed2 times2 Math_round]. rewrite Hc. apply measuresLoop_endless.
  - replace (digitsValue g1) with 0 by lia. cbn [Z.mul Z.eqb toFixed2 times2 Math_round].
    apply measuresLoop_empty.
Qed.


End GenerateOutcome.

Lemma generateMeasures_zero_denominator_witness :
  generateMeasures cyclicRandom "C" (Num (4 # 1)) ("3" ++ "/" ++ "0") (ofZ 70) None None
  = if 0 <? digitsValue "3" then Diverges
    else Done (repeat [] (Z.to_nat (Qceiling (4 # 1)))).
Proof.
  apply (generateMeasures_zero_denominator cyclicRandom "C" tt (4 # 1) "3" "0").
  - discriminate.
  - reflexivity.
  - discriminate.
  - reflexivity.
  - reflexivity.
  - reflexivity.
  - reflexivity.
Defined.


(** ** weightedChoice *)

Section WeightedChoice.
Context {K : Type} `{KeyManager K}.
Variable random : nat -> sample.

Lemma fold_left_Qplus_le (weights : list Q) (acc : Q) :
  (forall w, In w weights -> (0 <= w)%Q) ->
  (acc <= fold_left Qplus weights acc)%Q.
Proof.
  revert acc; induction weights as [|w weights IH]; intros acc Hw; [apply Qle_refl|].
  cbn [fold_left]. eapply Qle_trans; [|apply IH].
  - pose proof (Hw w (or_introl eq_refl)). lra.
  - intros w' I. apply Hw. now right.
Qed.

Lemma pickCumulative_first {T} (dflt : T) (r : Q) (items : list T) :
  forall (weights : list Q) (acc : Q),
    items <> [] ->
    length weights = length items ->
    (r <= fold_left Qplus weights acc)%Q ->
    exists i,
      (i < length items)%nat
      /\ pickCumulative dflt r acc items weights = nth i items dflt
      /\ (r <= fold_left Qplus (firstn (S i) weights) acc)%Q
      /\ forall j, (j < i)%nat -> (fold_left Qplus (firstn (S j) weights) acc < r)%Q.
Proof.
  induction items as [|it items IH]; intros weights acc N L R; [congruence|].
  destruct weights as [|w weights]; [discriminate|].
  cbn [pickCumulative]. destruct (Qle_bool r (acc + w)) eqn:C.
  - exists 0%nat. split; [simpl; lia|]. split; [reflexivity|].
    split; [apply Qle_bool_iff in C; exact C | intros j Hj; lia].
  - assert (Hlt : (acc + w < r)%Q).
    { apply Qnot_le_lt. intros C'. apply Qle_bool_iff in C'. congruence. }
    destruct items as [|it' items'].
    + destruct weights; [|discriminate]. cbn [fold_left] in R.
      exfalso. apply (Qlt_not_le _ _ Hlt R).
    + destruct (IH weights (acc + w)%Q ltac:(discriminate)) as (i & Hi & E & Hr & Hj).
      * simpl in L |- *. lia.
      * exact R.
      * exists (S i). split; [simpl in Hi |- *; lia|]. split; [exact E|].
        split; [exact Hr|].
        intros [|j] Hlt'; [exact Hlt|]. apply Hj. lia.
Qed.

(** X14: [weightedChoice] returns the item of the first index at which the
    running total of the weights reaches the draw scaled by the sum of the
    weights; with as many weights as items, none negative, such an index
    exists, so the closing fallback to the last item is never what decides. *)
Theorem weightedChoice_first_reaching {T} (dflt : T) (items : list T)
  (weights : list Q) (s : gstate K) :
  items <> [] ->
  length weights = length items ->
  (forall w, In w weights -> (0 <= w)%Q) ->
  exists i,
    (i < length items)%nat
    /\ fst (weightedChoice random dflt items weights s) = nth i items dflt
    /\ (sval (random (draws s)) * fold_left Qplus weights 0 <= cumulative weights i)%Q
    /\ forall j, (j < i)%nat ->
         (cumulative weights j < sval (random (draws s)) * fold_left Qplus weights 0)%Q.
Proof.
  intros N L Hw. unfold weightedChoice, bind, Math_random, ret. cbn [fst].
  apply pickCumulative_first; [exact N | exact L |].
  destruct (random (draws s)) as [u Hu]. cbn [sval].
  unfold inUnitInterval in Hu. apply andb_true_iff in Hu as [H0 H1].
  apply Qle_bool_iff in H0. apply negb_true_iff in H1.
  assert (Hlt : (u < 1)%Q).
  { apply Qnot_le_lt. intros C. apply Qle_bool_iff in C. congruence. }
  pose proof (fold_left_Qplus_le weights 0%Q Hw) as Ht.
  revert Ht. generalize (fold_left Qplus weights 0%Q) as total. intros total Ht.
  rewrite <- (Qmult_1_l total) at 2.
  apply Qmult_le_compat_r; [apply Qlt_le_weak, Hlt | exact Ht].
Qed.

(** The weights the generator computes are never below 1. *)
Lemma weightOf_positive (noteDensity : number) (d : Pool.entry) :
  (1 <= weightOf (densityRatio noteDensity) d)%Q.
Proof.
  destruct (densityRatio_range noteDensity) as [L U]. revert L U.
  generalize (densityRatio noteDensity) as r. intros r L U.
  unfold weightOf.
  destruct (Pool.eighths d <=? 1), (4 <=? Pool.eighths d), (Pool.eighths d =? 2);
    nra.
Qed.

End WeightedChoice.

Lemma weightedChoice_first_reaching_witness :
  exists i,
    (i < length [Dq; D8; Dh])%nat
    /\ fst (weightedChoice cyclicRandom Dq [Dq; D8; Dh] [3 # 2; 3; 1]%Q
              {| km := tt; draws := 1 |}) = nth i [Dq; D8; Dh] Dq
    /\ (sval (cyclicRandom 1) * fold_left Qplus [3 # 2; 3; 1]%Q 0
        <= cumulative [3 # 2; 3; 1]%Q i)%Q
    /\ forall j, (j < i)%nat ->
         (cumulative [3 # 2; 3; 1]%Q j
          < sval (cyclicRandom 1) * fold_left Qplus [3 # 2; 3; 1]%Q 0)%Q.
Proof.
  apply (weightedChoice_first_reaching cyclicRandom Dq [Dq; D8; Dh] [3 # 2; 3; 1]%Q
           {| km := tt; draws := 1 |}).
  - discriminate.
  - reflexivity.
  - intros w [<-|[<-|[<-|[]]]]; discriminate.
Defined.

(** ** The library under every handler *)





Lemma filter_absent (i : string) (items : list GeneratedScore.t) :
  hasId i items = false ->
  filter (fun item => negb (String.eqb (GeneratedScore.id item) i)) items = items.
Proof.
  intros Hno. apply forallb_filter_id. apply forallb_forall. intros x Hx.
  apply negb_true_iff. apply not_true_is_false. intros E.
  apply String.eqb_eq in E.
  assert (C : hasId i items = true) by (apply hasId_In; now exists x).
  congruence.
Qed.








Section RunFacts.
Context {K : Type} `{KeyManager K}.




End RunFacts.


(** ** Loading, deleting and reverting *)

Lemma find_by_id (e : GeneratedScore.t) (items : list GeneratedScore.t) :
  NoDup (map GeneratedScore.id items) ->
  In e items ->
  find (fun item => String.eqb (GeneratedScore.id item) (GeneratedScore.id e)) items
  = Some e.
Proof.
  induction items as [|x items IH]; intros ND Hin; [destruct Hin|].
  cbn [map] in ND. apply NoDup_cons_iff in ND as [Hnot ND].
  cbn [find]. destruct Hin as [->|Hin].
  - now rewrite String.eqb_refl.
  - destruct (String.eqb_spec (GeneratedScore.id x) (GeneratedScore.id e)) as [E|_].
    + exfalso. apply Hnot. rewrite E. now apply in_map.
    + now apply IH.
Qed.

(** X16: In a library that holds no identifier twice, loading the identifier of
    an entry shows that very entry: it becomes the active score, the
    controls take its parameters, and the score shown before becomes the
    previous one.  Loading an identifier the library does not hold shows
    nothing new, yet still overwrites the previous score with the active
    one.  Neither changes the library. *)
Theorem handleLoad_shows_entry (st : App.State) :
  NoDup (map GeneratedScore.id (App.collection st)) ->
  (forall e, In e (App.collection st) ->
     handleLoad (GeneratedScore.id e) st = showScore e (App.score st) st)
  /\ (forall id, hasId id (App.collection st) = false ->
        handleLoad id st = setPreviousScore (App.score st) st).
Proof.
  intros ND. split.
  - intros e Hin. unfold handleLoad. now rewrite (find_by_id e _ ND Hin).
  - intros id Hno. unfold handleLoad.
    destruct (find _ (App.collection st)) as [found|] eqn:F; [|reflexivity].
    apply find_some in F as [Hin E]. apply String.eqb_eq in E.
    assert (C : hasId id (App.collection st) = true) by (apply hasId_In; now exists found).
    congruence.
Qed.

Lemma handleLoad_shows_entry_witness :
  handleLoad "7d9f0c1e" (handleSave (initialState (Some (scoreIn "G"))))
  = showScore (scoreIn "G") (Some (scoreIn "G"))
      (handleSave (initialState (Some (scoreIn "G")))).
Proof.
  apply (proj1 (handleLoad_shows_entry (handleSave (initialState (Some (scoreIn "G"))))
                  ltac:(repeat constructor; simpl; tauto))
           (scoreIn "G")).
  simpl. now left.
Defined.

(** X17: Saving the active score under a fresh identifier and deleting that
    identifier again clears the active score and leaves the first 29
    entries of the old library, in memory and in storage: the library is
    as it was when it held fewer than 30 entries, and has lost its oldest
    entry when it was full. *)
Theorem handleSave_then_handleDelete (st : App.State) (score : GeneratedScore.t) :
  App.score st = Some score ->
  hasId (GeneratedScore.id score) (App.collection st) = false ->
  App.collection (handleDelete (GeneratedScore.id score) (handleSave st))
  = firstn 29 (App.collection st)
  /\ App.stored (handleDelete (GeneratedScore.id score) (handleSave st))
     = Some (persistCollection (firstn 29 (App.collection st)))
  /\ App.score (handleDelete (GeneratedScore.id score) (handleSave st)) = None
  /\ ((length (App.collection st) < 30)%nat ->
      App.collection (handleDelete (GeneratedScore.id score) (handleSave st))
      = App.collection st).
Proof.
  intros Hs Hfresh.
  assert (E : handleSave st
              = setAndPersist (firstn 30 (score :: App.collection st)) st).
  { unfold handleSave. now rewrite Hs, Hfresh. }
  rewrite E. unfold handleDelete.
  cbn [App.collection App.stored App.score setAndPersist]. rewrite Hs.
  rewrite firstn_cons. cbn [filter]. rewrite String.eqb_refl. cbn [negb].
  assert (F : filter (fun item => negb (String.eqb (GeneratedScore.id item)
                                                   (GeneratedScore.id score)))
                     (firstn 29 (App.collection st))
              = firstn 29 (App.collection st)).
  { apply filter_absent. apply not_true_is_false. intros C.
    apply hasId_In in C as (item & Hin & Ei).
    assert (C : hasId (GeneratedScore.id score) (App.collection st) = true).
    { apply hasId_In. exists item. split; [|exact Ei].
      rewrite <- (firstn_skipn 29 (App.collection st)). apply in_or_app. now left. }
    congruence. }
  rewrite F. repeat split.
  intros L. apply firstn_all2. lia.
Qed.

Lemma handleSave_then_handleDelete_witness :
  App.collection (handleDelete (GeneratedScore.id (scoreIn "G"))
                    (handleSave (initialState (Some (scoreIn "G")))))
  = firstn 29 (App.collection (initialState (Some (scoreIn "G"))))
  /\ App.stored (handleDelete (GeneratedScore.id (scoreIn "G"))
                   (handleSave (initialState (Some (scoreIn "G")))))
     = Some (persistCollection
               (firstn 29 (App.collection (initialState (Some (scoreIn "G"))))))
  /\ App.score (handleDelete (GeneratedScore.id (scoreIn "G"))
                  (handleSave (initialState (Some (scoreIn "G"))))) = None
  /\ ((length (App.collection (initialState (Some (scoreIn "G")))) < 30)%nat ->
      App.collection (handleDelete (GeneratedScore.id (scoreIn "G"))
                        (handleSave (initialState (Some (scoreIn "G")))))
      = App.collection (initialState (Some (scoreIn "G")))).
Proof.
  apply (handleSave_then_handleDelete (initialState (Some (scoreIn "G"))) (scoreIn "G"));
    reflexivity.
Defined.

(** X18: Reverting swaps the active and the previous score and sets the
    controls from the score it shows.  Reverting twice therefore shows the
    first score again, with the controls set from it, when there was an
    active score; with no active score the first revert shows the previous
    score and empties the previous slot, and the second does nothing.
    With no previous score, reverting does nothing. *)
Theorem handleRevert_twice (st : App.State) :
  handleRevert (handleRevert st)
  = match App.previousScore st, App.score st with
    | Some previous, Some active => showScore active (Some previous) st
    | Some previous, None => showScore previous None st
    | None, _ => st
    end.
Proof.
  unfold handleRevert at 2.
  destruct (App.previousScore st) as [previous|] eqn:P.
  - unfold handleRevert. cbn [App.previousScore App.score showScore].
    destruct (App.score st); reflexivity.
  - unfold handleRevert. now rewrite P.
Qed.

(** ** Generating *)

Section GenerateFacts.
Context {K : Type} `{KeyManager K}.


End GenerateFacts.


(** ** What an import accepts, and importing twice *)

Lemma normalizeImportedScore_export (uuid : string) (now : Z) (s : GeneratedScore.t) :
  importable s ->
  normalizeImportedScore uuid now (scoreToJson s) = Done (Some (reimported uuid now s)).
Proof.
  intros (Hk & Ht & Hm).
  destruct (scoreToJson_members s)
    as (Ho & Pid & Pkey & Pbars & Ptempo & Psig & Pden & Plow & Phigh & Pms & Pca).
  unfold normalizeImportedScore.
  rewrite Ho, Pid, Pkey, Pbars, Ptempo, Psig, Pden, Plow, Phigh, Pms, Pca.
  cbn [negb].
  rewrite (nonEmptyString_JStr _ Hk), (nonEmptyString_JStr _ Ht).
  rewrite ToNumber_numberToJson. cbn [andThen].
  assert (Ft : Number_isFinite (finiteOrZero (GeneratedScore.tempo s)) = true)
    by (destruct (GeneratedScore.tempo s); reflexivity).
  rewrite Ft. cbn [negb].
  assert (Hc : (if truthy (Some (numberToJson (GeneratedScore.createdAt s)))
                then finiteOr (Some (numberToJson (GeneratedScore.createdAt s))) (ofZ now)
                else Done (ofZ now))
               = Done match GeneratedScore.createdAt s with
                      | Num q => if Qeq_bool q 0 then ofZ now else Num q
                      | _ => ofZ now
                      end).
  { destruct (GeneratedScore.createdAt s) as [q| | |]; try reflexivity.
    cbn [numberToJson truthy]. destruct (Qeq_bool q 0); reflexivity. }
  rewrite Hc, !finiteOr_numberToJson. cbn [andThen].
  rewrite (normalizeMeasures_map _ Hm), !finiteOr_numberToJson. cbn [andThen].
  unfold reimported. do 2 f_equal.
  destruct (GeneratedScore.lowestPitch s), (GeneratedScore.highestPitch s),
    (GeneratedScore.id s); reflexivity.
Qed.








Lemma finiteOrZero_finite (x : number) : Number_isFinite x = true -> finiteOrZero x = x.
Proof. destruct x; [reflexivity | discriminate ..]. Qed.








(** ** A generated score through export and import *)

Section GeneratedRoundTrip.
Context {K : Type} `{KeyManager K}.

(** X23: A score generated with a non-empty key and time signature, finite bar
    count, tempo and density, a non-empty identifier and a time other than
    zero comes back from export and import with every field as it was;
    its events keep their key, duration and rest flag, and their
    accidental unless the key manager left it undefined, which the import
    reads as null. *)
Theorem generated_score_roundtrip (random : nat -> sample) (uuid : string) (now : Z)
  (st : App.State) (keyManager : K) (uuid' : string) (now' : Z) :
  newKeyManager (App.keySig st) = Some keyManager ->
  App.keySig st <> "" ->
  App.timeSig st <> "" ->
  Number_isFinite (App.bars st) = true ->
  Number_isFinite (App.tempo st) = true ->
  Number_isFinite (App.noteDensity st) = true ->
  eighthsPerMeasure (parseTimeSignature (App.timeSig st)) <> WholePosInf ->
  uuid <> "" ->
  now <> 0 ->
  exists st' next,
    handleGenerate random uuid now st = Done st'
    /\ App.score st' = Some next
    /\ normalizeImportedScore uuid' now' (content (handleDownload next))
       = Done (Some (settledScore next))
    /\ forall m e, In m (GeneratedScore.measures next) -> In e m ->
         NoteSpec.key (settled e) = NoteSpec.key e
         /\ NoteSpec.duration (settled e) = NoteSpec.duration e
         /\ NoteSpec.isRest (settled e) = NoteSpec.isRest e
         /\ (NoteSpec.accidental e <> undefined -> settled e = e).
Proof.
  intros Hkey Hk Ht Fb Ftempo Fd Hfin Hu Hnow.
  assert (Hbars : App.bars st <> PosInf) by (intros C; rewrite C in Fb; discriminate).
  destruct (generateMeasures_correct random (App.keySig st) keyManager (App.bars st)
              (App.timeSig st) (App.noteDensity st)
              (Some (App.lowestPitch st)) (Some (App.highestPitch st)) Hkey Hbars Hfin)
    as (measures & rounds & E & _).
  pose proof (generateMeasures_events random (App.keySig st) keyManager (App.bars st)
                (App.timeSig st) (App.noteDensity st)
                (Some (App.lowestPitch st)) (Some (App.highestPitch st))
                (fun e => (exists b, NoteSpec.isRest e = Some b) /\ NoteSpec.key e <> "")
                measures Hkey) as Hev.
  specialize (Hev ltac:(intros octave selection choice n _ _ _; split;
                         [eexists; reflexivity
                         | cbn [NoteSpec.key]; unfold noteKeyOf;
                           destruct (sel_note selection); discriminate]) E).
  unfold handleGenerate. rewrite E. cbn [andThen].
  eexists. eexists. split; [reflexivity|].
  cbn [App.score]. split; [reflexivity|].
  cbn [content handleDownload GeneratedScore.measures]. split.
  - rewrite normalizeImportedScore_export.
    + unfold reimported, settledScore.
      cbn [GeneratedScore.id GeneratedScore.key GeneratedScore.bars GeneratedScore.tempo
           GeneratedScore.timeSig GeneratedScore.measures GeneratedScore.createdAt
           GeneratedScore.noteDensity GeneratedScore.highestPitch
           GeneratedScore.lowestPitch orElse].
      rewrite !finiteOrZero_finite by assumption.
      destruct uuid; [congruence|]. cbn [isEmpty].
      assert (Z0 : Qeq_bool (inject_Z now) 0 = false).
      { apply not_true_is_false. intros C. apply Qeq_bool_eq in C.
        change 0%Q with (inject_Z 0) in C. rewrite inject_Z_injective in C. congruence. }
      unfold ofZ. rewrite Z0. reflexivity.
    + split; [exact Hk|]. split; [exact Ht|].
      cbn [GeneratedScore.measures]. intros m e Im Ie.
      right. exact (proj2 (Hev m e Im Ie)).
  - intros m e Im Ie. destruct (Hev m e Im Ie) as [[b Hb] _].
    destruct e as [k a d r]. cbn in Hb |- *. subst r.
    repeat split. intros Ha. destruct a; [congruence | reflexivity | reflexivity].
Qed.

End GeneratedRoundTrip.

Lemma generated_score_roundtrip_witness :
  exists st' next,
    handleGenerate cyclicRandom "0b7e" 1700000000000 (initialState None) = Done st'
    /\ App.score st' = Some next
    /\ normalizeImportedScore "e5f6" 1700000005000 (content (handleDownload next))
       = Done (Some (settledScore next))
    /\ forall m e, In m (GeneratedScore.measures next) -> In e m ->
         NoteSpec.key (settled e) = NoteSpec.key e
         /\ NoteSpec.duration (settled e) = NoteSpec.duration e
         /\ NoteSpec.isRest (settled e) = NoteSpec.isRest e
         /\ (NoteSpec.accidental e <> undefined -> settled e = e).
Proof.
  apply (generated_score_roundtrip cyclicRandom "0b7e" 1700000000000 (initialState None) tt
           "e5f6" 1700000005000).
  - reflexivity.
  - discriminate.
  - discriminate.
  - reflexivity.
  - reflexivity.
  - reflexivity.
  - vm_compute. discriminate.
  - discriminate.
  - discriminate.
Defined.

(** ** loadCollection *)

Lemma loadItem_scoreToJson (s : GeneratedScore.t) :
  GeneratedScore.lowestPitch s <> None ->
  GeneratedScore.highestPitch s <> None ->
  loadItem (scoreToJson s) = Some (scoreToJson (reloaded s)).
Proof.
  destruct s as [i k b t ts ms c d hp lp]. cbn [GeneratedScore.lowestPitch
    GeneratedScore.highestPitch]. intros Hl Hh.
  destruct lp as [lp|]; [|congruence]. destruct hp as [hp|]; [|congruence].
  destruct d as [q| | |]; reflexivity.
Qed.


Lemma lookupMember_None (k : string) (l : list (string * json)) :
  existsb (fun kv => String.eqb (fst kv) k) l = false -> lookupMember k l = None.
Proof.
  induction l as [|[k0 v0] l IH]; [reflexivity|].
  cbn [existsb fst lookupMember]. intros E. apply orb_false_iff in E as [E0 E].
  now rewrite (IH E), E0.
Qed.














(** X24: What the handlers write is read back at the next start as it was
    written, entry by entry and in the same order, for scores that carry
    both pitch bounds (as every score made by generating or importing
    does); the one change is that a density that was not finite, written
    as null, is read as 70.  With finite densities the library read back
    is exactly the library written. *)
Theorem loadCollection_persistCollection (items : list GeneratedScore.t) :
  (forall s, In s items ->
     GeneratedScore.lowestPitch s <> None /\ GeneratedScore.highestPitch s <> None) ->
  loadCollection (JsonText (persistCollection items))
  = map (fun s => scoreToJson (reloaded s)) items
  /\ ((forall s, In s items -> Number_isFinite (GeneratedScore.noteDensity s) = true) ->
      loadCollection (JsonText (persistCollection items)) = map scoreToJson items).
Proof.
  intros Hp.
  assert (E : loadItems (map scoreToJson items)
              = Some (map (fun s => scoreToJson (reloaded s)) items)).
  { induction items as [|s items IH]; [reflexivity|].
    cbn [map loadItems].
    destruct (Hp s (or_introl eq_refl)) as [Hl Hh].
    rewrite (loadItem_scoreToJson s Hl Hh).
    rewrite IH by (intros s' Hs'; apply Hp; now right). reflexivity. }
  unfold loadCollection, persistCollection. rewrite E. split; [reflexivity|].
  intros Hf. apply map_ext_in. intros s Hs. f_equal.
  destruct s as [i k b t ts ms c d hp lp]. unfold reloaded.
  cbn [GeneratedScore.id GeneratedScore.key GeneratedScore.bars GeneratedScore.tempo
       GeneratedScore.timeSig GeneratedScore.measures GeneratedScore.createdAt
       GeneratedScore.noteDensity GeneratedScore.highestPitch GeneratedScore.lowestPitch].
  specialize (Hf _ Hs). cbn [GeneratedScore.noteDensity] in Hf. now rewrite Hf.
Qed.

Lemma loadCollection_persistCollection_witness :
  loadCollection (JsonText (persistCollection [scoreIn "G"; importedSnapshot]))
  = map (fun s => scoreToJson (reloaded s)) [scoreIn "G"; importedSnapshot]
  /\ ((forall s, In s [scoreIn "G"; importedSnapshot] ->
         Number_isFinite (GeneratedScore.noteDensity s) = true) ->
      loadCollection (JsonText (persistCollection [scoreIn "G"; importedSnapshot]))
      = map scoreToJson [scoreIn "G"; importedSnapshot]).
Proof.
  apply (loadCollection_persistCollection [scoreIn "G"; importedSnapshot]).
  intros s [<-|[<-|[]]]; split; discriminate.
Defined.


Example loadCollection_examples :
  loadCollection NoText = []
  /\ loadCollection NotJsonText = []
  /\ loadCollection (JsonText (JObj [("0", scoreToJson (scoreIn "G"))])) = []
  /\ loadCollection (JsonText (JArr [scoreToJson (scoreIn "G"); JNull])) = []
  /\ loadCollection
       (JsonText (JArr [JObj [("key", JStr "D"); ("7", JNum 1); ("timeSig", JNull);
                              ("key", JStr "E"); ("2", JBool true)];
                        JStr "ab"; JNum 5]))
     = [JObj [("2", JBool true); ("7", JNum 1); ("key", JStr "E");
              ("timeSig", JStr "4/4"); ("noteDensity", JNum 70);
              ("lowestPitch", JStr "C4"); ("highestPitch", JStr "G5")];
        JObj [("0", JStr "a"); ("1", JStr "b"); ("timeSig", JStr "4/4");
              ("noteDensity", JNum 70); ("lowestPitch", JStr "C4");
              ("highestPitch", JStr "G5")];
        JObj [("timeSig", JStr "4/4"); ("noteDensity", JNum 70);
              ("lowestPitch", JStr "C4"); ("highestPitch", JStr "G5")]].
Proof. repeat split; vm_compute; reflexivity. Qed.

(** ** The library at the next start *)




Section ReloadFacts.
Context {K : Type} `{KeyManager K}.




End ReloadFacts.


(** ** drawScore *)



Example drawScore_examples :
  map (fun s => (stave_x s, stave_y s, stave_width s))
      (staves (drawScore 900 (blankScore (ofZ 6) 6)))
  = [(ofZ 10, ofZ 40, ofZ 176); (ofZ 186, ofZ 40, ofZ 176); (ofZ 362, ofZ 40, ofZ 176);
     (ofZ 538, ofZ 40, ofZ 176); (ofZ 714, ofZ 40, ofZ 176); (ofZ 10, ofZ 190, ofZ 176)]
  /\ svgHeight (drawScore 900 (blankScore (ofZ 6) 6)) = ofZ 340
  /\ map (fun s => (stave_x s, stave_y s, stave_width s))
         (staves (drawScore 900 (blankScore (Num (5 # 2)) 3)))
     = [(ofZ 10, ofZ 40, ofZ 352); (ofZ 362, ofZ 40, ofZ 352); (ofZ 10, ofZ 190, ofZ 352)]
  /\ svgHeight (drawScore 900 (blankScore (Num (5 # 2)) 3)) = ofZ 170.
Proof. repeat split; vm_compute; reflexivity. Qed.














(** ** handlePlay *)






Example handlePlay_examples :
  option_map (fun p => (map (fun t => (tone_start t, tone_duration t, tone_key t))
                            (tones p), totalMs p))
    (handlePlay (Num (3 # 2)) false (Some importedSnapshot))
  = Some ([(Num (8 # 5), ofZ 1, "g/4"); (Num (13 # 5), Num (1 # 2), "b/4")], ofZ 1600)
  /\ handlePlay (Num (3 # 2)) true (Some importedSnapshot) = None
  /\ handlePlay (Num (3 # 2)) false None = None.
Proof. repeat split; vm_compute; reflexivity. Qed.

(** ** The controls *)

